(** * libdcf77: debounce filter, telegram validation and bit-timing decoder

    A shallow embedding of [dcf77.cpp] / [dcf77.hpp].  Unsigned fixed-width
    integers are values of [Z] with the wrap-around of every narrowing
    conversion written out; [int] is taken to be at least 32 bits wide, so the
    intermediate results of the integer promotions never overflow. *)

From Stdlib Require Import ZArith List Bool Lia.
Import ListNotations.

Local Open Scope Z_scope.

(** ** Fixed-width conversions *)

Definition to_uint8 (x : Z) : Z := x mod 256.
Definition to_uint16 (x : Z) : Z := x mod 65536.
Definition to_uint32 (x : Z) : Z := x mod 4294967296.
Definition to_uint64 (x : Z) : Z := x mod 18446744073709551616.

(** ** The single-pole low-pass filter *)

Definition FIXED_POINT_LOG2_BASE : Z := 7.
Definition FIXED_POINT_BASE : Z := to_uint8 (Z.shiftl 1 FIXED_POINT_LOG2_BASE).
(* [FIXED_POINT_BASE * 0.97] is 124.16, truncated by the conversion to
   uint8_t; the same value is obtained with the exact fraction 97/100. *)
Definition FLT_F1 : Z := to_uint8 (FIXED_POINT_BASE * 97 / 100).
Definition FLT_F2 : Z := to_uint8 (FIXED_POINT_BASE - FLT_F1).

Definition filter (ctrl : bool) (x : Z) : Z :=
  to_uint8
    (Z.shiftr
       (x * FLT_F1 + (if ctrl then Z.shiftl FLT_F2 FIXED_POINT_LOG2_BASE else 0))
       FIXED_POINT_LOG2_BASE).

(** [filter_convergence] recurses until the filter no longer moves.  The
    recursion is not structural, so it is driven by a step budget; [None]
    means that the budget was used up before a fixed point was met. *)
Fixpoint filter_convergence (fuel : nat) (ctrl : bool) (x : Z) : option Z :=
  match fuel with
  | O => None
  | S fuel' =>
      if filter ctrl x =? x then Some x
      else filter_convergence fuel' ctrl (filter ctrl x)
  end.

(** A uint8_t accumulator has 256 values, which bounds the recursion depth. *)
Definition convergence_fuel : nat := 256.

Definition converged (r : option Z) : Z :=
  match r with Some x => x | None => 0 end.

Definition FLT_MAX : Z :=
  converged (filter_convergence convergence_fuel true (FIXED_POINT_BASE / 2)).
Definition FLT_MIN : Z :=
  converged (filter_convergence convergence_fuel false (FIXED_POINT_BASE / 2)).

(** ** Class [debounce] *)

Module debounce.

Record result : Type := mk_result {
  t : Z;          (* timestamp of the state transition *)
  value : bool;   (* current output state *)
  edge : bool     (* a state transition occurred just now *)
}.

Record state : Type := mk_state {
  m_low_pass : Z;
  m_last_t : Z;
  m_last_state_change : Z;
  m_hysteresis : Z;
  m_last_input_value : bool;
  m_result : result
}.

(** The constructor [debounce::debounce(hysteresis)]. *)
Definition init (hysteresis : Z) : state :=
  {| m_low_pass := to_uint8 (FIXED_POINT_BASE / 2);
     m_last_t := 0;
     m_last_state_change := 0;
     m_hysteresis := to_uint8 (Z.shiftr (hysteresis * (FLT_MAX - FLT_MIN)) 8);
     m_last_input_value := false;
     m_result := mk_result 0 false false |}.

(** The low-pass loop: at most [n] filter steps, left early as soon as a
    step does not move the accumulator ([lv] always holds the value the
    accumulator had before the step). *)
Fixpoint low_pass_loop (n : nat) (v : bool) (lp : Z) : Z :=
  match n with
  | O => lp
  | S n' =>
      let lp' := filter v lp in
      if lp' =? lp then lp' else low_pass_loop n' v lp'
  end.

(** The Schmitt trigger applied to the filtered value. *)
Definition trigger (lp hyst last_change : Z) (r : result) : result :=
  if (lp >? FLT_MAX - hyst) && negb (value r) then
    mk_result last_change true true
  else if (lp <? FLT_MIN + hyst) && value r then
    mk_result last_change false true
  else
    mk_result (t r) (value r) false.

(** [debounce::sample(value, t)]: the new object state; the returned
    reference is its [m_result]. *)
Definition sample (s : state) (v : bool) (now : Z) : state :=
  let dt := to_uint16 (now - m_last_t s) in
  let lp := low_pass_loop (Z.to_nat dt) v (m_low_pass s) in
  let last_change :=
    if Bool.eqb v (m_last_input_value s) then m_last_state_change s
    else now in
  {| m_low_pass := lp;
     m_last_t := now;
     m_last_state_change := last_change;
     m_hysteresis := m_hysteresis s;
     m_last_input_value := v;
     m_result := trigger lp (m_hysteresis s) last_change (m_result s) |}.

(** A trace is a sequence of calls [sample(value, t)]. *)
Definition run (s : state) (trace : list (bool * Z)) : state :=
  fold_left (fun s c => sample s (fst c) (snd c)) trace s.

(** Number of ticks that elapse over a trace started at time [last], each
    interval measured as [sample] does. *)
Fixpoint elapsed (last : Z) (trace : list (bool * Z)) : Z :=
  match trace with
  | [] => 0
  | c :: rest => to_uint16 (snd c - last) + elapsed (snd c) rest
  end.

(** [n] calls with the same input at the consecutive ticks [from],
    [from + 1], ... *)
Fixpoint hold (n : nat) (v : bool) (from : Z) : list (bool * Z) :=
  match n with
  | O => []
  | S n' => (v, from) :: hold n' v (to_uint16 (from + 1))
  end.

(** The input is held at [v] from tick [now] on, one call per tick:
    [Some k] when the call at tick [now + k] is the first that reports an
    edge, [None] when none of the first [fuel] calls does. *)
Fixpoint ticks_to_edge (fuel : nat) (s : state) (v : bool) (now : Z)
  : option nat :=
  match fuel with
  | O => None
  | S fuel' =>
      let s' := sample s v now in
      if edge (m_result s') then Some O
      else option_map S (ticks_to_edge fuel' s' v (to_uint16 (now + 1)))
  end.

(** The delay of the flip for a filter constructed with [hysteresis] that
    has processed [pre] when the raw input changes to [v] at tick [now]. *)
Definition flip_delay (fuel : nat) (hysteresis : Z) (pre : list (bool * Z))
                      (v : bool) (now : Z) : option nat :=
  ticks_to_edge fuel (run (init hysteresis) pre) v now.

End debounce.

(** ** Union [data] *)

(** Number of set bits among the [n] bit positions [from], [from + 1], ... *)
Fixpoint count_bits (n : nat) (x from : Z) : Z :=
  match n with
  | O => 0
  | S n' => Z.b2z (Z.testbit x from) + count_bits n' x (from + 1)
  end.

(** [__builtin_popcount] on a 32-bit [unsigned int]. *)
Definition popcount (x : Z) : Z := count_bits 32 (to_uint32 x) 0.

Definition parity (x : Z) : Z := to_uint8 (Z.land (popcount x) 1).

Definition valid_bcd (max_hi max_lo : Z) (x : Z) : bool :=
  let hi := to_uint8 (Z.shiftr (Z.land x 240) 4) in
  let lo := to_uint8 (Z.shiftr (Z.land x 15) 0) in
  if (hi >? 9) || (lo >? 9) then false
  else if hi >? max_hi then false
  else if (hi =? max_hi) && (lo >? max_lo) then false
  else true.

Module data.

(** The bit-fields of [raw] overlay [bitstream] from its least significant
    bit on, in declaration order and without padding: a field is the
    [width] bits of the register that start at bit [off].  (This is the
    layout of the transmitted telegram; the mask of the date parity in
    [valid] relies on it.) *)
Definition field (off width : Z) (bitstream : Z) : Z :=
  Z.land (Z.shiftr bitstream off) (Z.ones width).

Definition minute_start := field 0 1.
Definition aux_data := field 1 14.
Definition call_bit := field 15 1.
Definition dst_leap_hour := field 16 1.
Definition cest := field 17 1.
Definition cet := field 18 1.
Definition leap_second := field 19 1.
Definition time_start := field 20 1.
Definition minute := field 21 7.
Definition parity_minute := field 28 1.
Definition hour := field 29 6.
Definition parity_hour := field 35 1.
Definition day := field 36 6.
Definition day_of_week := field 42 3.
Definition month := field 45 5.
Definition year := field 50 8.
Definition parity_date := field 58 1.
Definition leap_second_bit := field 59 1.

(** The mask [0x3FFFFF000000000] of the date parity. *)
Definition DATE_MASK : Z := 288230307432235008.

Definition valid (time_and_date_only : bool) (bitstream : Z) : bool :=
  (time_and_date_only || (minute_start bitstream =? 0)) &&
  (time_start bitstream =? 1) &&
  (time_and_date_only || negb (cest bitstream =? cet bitstream)) &&
  (parity_minute bitstream =? parity (minute bitstream)) &&
  (parity_hour bitstream =? parity (hour bitstream)) &&
  (parity_date bitstream =?
     parity (to_uint32 (Z.shiftr (Z.land bitstream DATE_MASK) 32))) &&
  valid_bcd 5 9 (minute bitstream) &&
  valid_bcd 2 3 (hour bitstream) &&
  valid_bcd 3 1 (day bitstream) &&
  (day bitstream >? 0) &&
  (day_of_week bitstream >? 0) &&
  valid_bcd 1 2 (month bitstream) &&
  (month bitstream >? 0) &&
  valid_bcd 9 9 (year bitstream).

Definition decode_bcd (v : Z) : Z :=
  let res := Z.land v 15 in
  let res := if Z.land v 16 =? 0 then res else to_uint8 (res + 10) in
  let res := if Z.land v 32 =? 0 then res else to_uint8 (res + 20) in
  let res := if Z.land v 64 =? 0 then res else to_uint8 (res + 40) in
  let res := if Z.land v 128 =? 0 then res else to_uint8 (res + 80) in
  res.

(** The accessors of the decoded values. *)
Definition get_minute (b : Z) : Z := decode_bcd (minute b).
Definition get_hour (b : Z) : Z := decode_bcd (hour b).
Definition get_day (b : Z) : Z := decode_bcd (day b).
Definition get_day_of_week (b : Z) : Z := day_of_week b.
Definition get_month (b : Z) : Z := decode_bcd (month b).
Definition get_year (b : Z) : Z := to_uint16 (decode_bcd (year b) + 2000).

(** The flag accessors [daylight_saving()], [daylight_saving_leap_hour()]
    and [leap_second()]: a one-bit field converted to [bool]. *)
Definition get_daylight_saving (b : Z) : bool := negb (cest b =? 0).
Definition get_daylight_saving_leap_hour (b : Z) : bool :=
  negb (dst_leap_hour b =? 0).
Definition get_leap_second (b : Z) : bool := negb (leap_second b =? 0).

End data.

(** ** Class [decoder] *)

Module decoder.

Inductive state : Type :=
| no_result
| invalid_result
| has_time_and_date
| has_complete.

(** The underlying int8_t value of an enumerator. *)
Definition state_value (s : state) : Z :=
  match s with
  | no_result => 0
  | invalid_result => -1
  | has_time_and_date => 1
  | has_complete => 2
  end.

Definition SLACK : Z := 50.
Definition SYNC_HIGH_TIME : Z := 1800.
Definition LOW_ZERO_TIME : Z := 100.
Definition LOW_ONE_TIME : Z := 200.

Record t : Type := mk {
  m_debouncer : debounce.state;
  m_phase : Z;
  m_last_t : Z;
  m_data_new : Z;        (* bitstream of the working register *)
  m_data_current : Z;    (* bitstream of the last validated record *)
  m_state : Z            (* index of the bit written next *)
}.

(** A default-constructed decoder. *)
Definition init : t :=
  {| m_debouncer := debounce.init 64;
     m_phase := 0;
     m_last_t := 0;
     m_data_new := 0;
     m_data_current := 0;
     m_state := 0 |}.

Definition get_phase (d : t) : Z := m_phase d.
Definition get_data (d : t) : Z := m_data_current d.

(** The body of [if (dt > SYNC_HIGH_TIME - SLACK)] on a falling edge. *)
Definition sync_event (d : t) (event : debounce.result) : t * state :=
  let '(data_new, res) :=
    if m_state d <? 59 then
      let shifted := to_uint64 (Z.shiftl (m_data_new d) (59 - m_state d)) in
      (shifted, if data.valid true shifted then has_time_and_date else no_result)
    else
      (m_data_new d,
       if data.valid false (m_data_new d) then has_complete else no_result) in
  let committed := state_value res >=? state_value has_time_and_date in
  ({| m_debouncer := m_debouncer d;
      m_phase := if committed then debounce.t event else m_phase d;
      m_last_t := m_last_t d;
      m_data_new := 0;
      m_data_current := if committed then data_new else m_data_current d;
      m_state := 0 |}, res).

(** The body of [if (dt > LOW_ZERO_TIME - SLACK)] on a rising edge.  The
    shift [uint64_t(1) << m_state] has no defined result once [m_state]
    reaches the width of the register; this is the [None] outcome. *)
Definition bit_pulse (d : t) (dt : Z) : option t :=
  let written :=
    if dt >? LOW_ONE_TIME - SLACK then
      if m_state d <? 64
      then Some (Z.lor (m_data_new d) (to_uint64 (Z.shiftl 1 (m_state d))))
      else None
    else Some (m_data_new d) in
  match written with
  | Some data_new =>
      Some {| m_debouncer := m_debouncer d;
              m_phase := m_phase d;
              m_last_t := m_last_t d;
              m_data_new := data_new;
              m_data_current := m_data_current d;
              m_state := to_uint8 (m_state d + 1) |}
  | None => None
  end.

Inductive outcome : Type :=
| Done (d : t) (res : state)
| ShiftOutOfRange (amount : Z).

Definition set_debouncer (d : t) (deb : debounce.state) : t :=
  {| m_debouncer := deb;
     m_phase := m_phase d;
     m_last_t := m_last_t d;
     m_data_new := m_data_new d;
     m_data_current := m_data_current d;
     m_state := m_state d |}.

Definition set_last_t (d : t) (last : Z) : t :=
  {| m_debouncer := m_debouncer d;
     m_phase := m_phase d;
     m_last_t := last;
     m_data_new := m_data_new d;
     m_data_current := m_data_current d;
     m_state := m_state d |}.

(** [decoder::sample(value, t)]. *)
Definition sample (d : t) (v : bool) (now : Z) : outcome :=
  let deb := debounce.sample (m_debouncer d) v now in
  let event := debounce.m_result deb in
  let d0 := set_debouncer d deb in
  if debounce.edge event then
    let dt := to_uint16 (debounce.t event - m_last_t d0) in
    let '(d1, res) :=
      if negb (debounce.value event) && (dt >? SYNC_HIGH_TIME - SLACK)
      then sync_event d0 event
      else (d0, no_result) in
    let accepted :=
      if debounce.value event && (dt >? LOW_ZERO_TIME - SLACK)
      then bit_pulse d1 dt
      else Some d1 in
    match accepted with
    | Some d2 => Done (set_last_t d2 (debounce.t event)) res
    | None => ShiftOutOfRange (m_state d1)
    end
  else Done d0 no_result.

(** A sequence of calls; [None] once a call has shifted out of range. *)
Fixpoint run (d : t) (trace : list (bool * Z)) : option t :=
  match trace with
  | [] => Some d
  | c :: rest =>
      match sample d (fst c) (snd c) with
      | Done d' _ => run d' rest
      | ShiftOutOfRange _ => None
      end
  end.

(** The edge event that a call [sample(value, t)] obtains from the filter
    and the interval [dt] it measures. *)
Definition event (d : t) (v : bool) (now : Z) : debounce.result :=
  debounce.m_result (debounce.sample (m_debouncer d) v now).

Definition interval (d : t) (v : bool) (now : Z) : Z :=
  to_uint16 (debounce.t (event d v now) - m_last_t d).

End decoder.

(** ** Test signals *)

(** One amplitude-reduction pulse per second from tick [start] on, the
    carrier sampled at the two edges of every pulse: 100 ms low for a zero,
    200 ms low for a one. *)
Fixpoint pulses (start : Z) (bits : list bool) : list (bool * Z) :=
  match bits with
  | [] => []
  | b :: rest =>
      (false, to_uint16 start)
        :: (true, to_uint16 (start + (if b then 200 else 100)))
        :: pulses (start + 1000) rest
  end.

(** The 59 bits of a register, least significant first. *)
Definition telegram_bits (bitstream : Z) : list bool :=
  map (fun i => Z.testbit bitstream (Z.of_nat i)) (seq 0 59).



(** [n] zero pulses, one per second, with no minute mark among them. *)
Definition zero_pulses (n : nat) : list (bool * Z) :=
  pulses 1000 (repeat false n).

(** A telegram that passes the validation: 12:34 CET on Friday 30.10.26. *)
Definition sample_telegram : Z := 43372445223354368.

(** The carrier from a cold start up to the end of second 58 of the minute
    that transmits [sample_telegram]; the minute mark follows at tick 63000. *)
Definition sample_minute : list (bool * Z) :=
  (true, 1000) :: pulses 3000 (telegram_bits sample_telegram).

(** The decoder after a trace fed to a default-constructed one. *)
Definition decoder_after (trace : list (bool * Z)) : decoder.t :=
  match decoder.run decoder.init trace with
  | Some d => d
  | None => decoder.init
  end.

(** The last 39 pulses of that minute (bits 20..58), as a decoder switched
    on during second 19 sees them; the minute mark follows at tick 41000. *)
Definition partial_minute : list (bool * Z) :=
  pulses 1000 (skipn 20 (telegram_bits sample_telegram)).

(** The bits of the register that [data::valid] reads: bit 0, bits 17 and
    18, and bits 20 to 58. *)
Definition CHECKED_BITS : Z :=
  Z.lor (Z.lor 1 (Z.shiftl 3 17)) (Z.shiftl (Z.ones 39) 20).

(** The committed record is the empty one of a fresh decoder or has passed
    the time-and-date validation. *)
Definition committed_ok (d : decoder.t) : Prop :=
  decoder.get_data d = 0 \/ data.valid true (decoder.get_data d) = true.

(** Whether the bit index is below 64 before every call of a run. *)
Fixpoint index_below_64 (d : decoder.t) (trace : list (bool * Z)) : bool :=
  (decoder.m_state d <? 64)
  && match trace with
     | [] => true
     | c :: rest =>
         match decoder.sample d (fst c) (snd c) with
         | decoder.Done d' _ => index_below_64 d' rest
         | decoder.ShiftOutOfRange _ => true
         end
     end.

(** The number that a list of bits spells, least significant bit first. *)
Fixpoint bits_value (bits : list bool) : Z :=
  match bits with
  | [] => 0
  | b :: rest => Z.b2z b + 2 * bits_value rest
  end.

(** The default filter of a decoder right after a call at time [now] that
    changed the raw input to [lvl], let the accumulator converge and
    reported the edge. *)
Definition settled_filter (lvl : bool) (now : Z) : debounce.state :=
  {| debounce.m_low_pass := if lvl then FLT_MAX else FLT_MIN;
     debounce.m_last_t := now;
     debounce.m_last_state_change := now;
     debounce.m_hysteresis := debounce.m_hysteresis (debounce.init 64);
     debounce.m_last_input_value := lvl;
     debounce.m_result := debounce.mk_result now lvl true |}.

(** A decoder whose filter is settled on an edge at time [now]. *)
Definition settled_decoder (lvl : bool) (now k reg cur phase : Z)
  : decoder.t :=
  {| decoder.m_debouncer := settled_filter lvl now;
     decoder.m_phase := phase;
     decoder.m_last_t := now;
     decoder.m_data_new := reg;
     decoder.m_data_current := cur;
     decoder.m_state := k |}.

(** The tick of the last rising edge of [pulses a (b0 :: rest)], before
    the reduction to 16 bits. *)
Fixpoint last_rise (a : Z) (b0 : bool) (rest : list bool) : Z :=
  match rest with
  | [] => a + (if b0 then 200 else 100)
  | b1 :: rest' => last_rise (a + 1000) b1 rest'
  end.

(** ** Notions used in the statements *)

(** Only bits below the bit index have been written to the register. *)
Definition fresh (d : decoder.t) : Prop :=
  0 <= decoder.m_state d
  /\ 0 <= decoder.m_data_new d < 2 ^ decoder.m_state d.

(** Two filters that agree on everything but the hysteresis and the output:
    the hysteresis takes no part in the low-pass filter. *)
Definition same_filter (s1 s2 : debounce.state) : Prop :=
  debounce.m_low_pass s1 = debounce.m_low_pass s2
  /\ debounce.m_last_t s1 = debounce.m_last_t s2
  /\ debounce.m_last_state_change s1 = debounce.m_last_state_change s2
  /\ debounce.m_last_input_value s1 = debounce.m_last_input_value s2.

(** A call that detects a minute boundary: a falling edge after a high
    phase longer than [SYNC_HIGH_TIME - SLACK]. *)
Definition minute_boundary (d : decoder.t) (v : bool) (now : Z) : Prop :=
  debounce.edge (decoder.event d v now) = true
  /\ debounce.value (decoder.event d v now) = false
  /\ decoder.SYNC_HIGH_TIME - decoder.SLACK < decoder.interval d v now.

(** A call that sees a rising edge. *)
Definition rising_edge (d : decoder.t) (v : bool) (now : Z) : Prop :=
  debounce.edge (decoder.event d v now) = true
  /\ debounce.value (decoder.event d v now) = true.

(** The working register as the boundary handling validates it. *)
Definition realigned (d : decoder.t) : Z :=
  to_uint64 (Z.shiftl (decoder.m_data_new d) (59 - decoder.m_state d)).

(** * Properties *)

(** ** The filter and its convergence constants *)

Lemma filter_unfold (ctrl : bool) (x : Z) :
  filter ctrl x = ((x * 124 + (if ctrl then 512 else 0)) / 128) mod 256.
Proof.
  unfold filter, to_uint8.
  change FLT_F1 with 124.
  change (Z.shiftl FLT_F2 FIXED_POINT_LOG2_BASE) with 512.
  change FIXED_POINT_LOG2_BASE with 7.
  rewrite Z.shiftr_div_pow2 by lia.
  reflexivity.
Qed.

Lemma FLT_MAX_value : FLT_MAX = 97.
Proof. reflexivity. Qed.

Lemma FLT_MIN_value : FLT_MIN = 0.
Proof. reflexivity. Qed.

(** One step towards the ceiling: at least one unit, never beyond it. *)
Lemma filter_true_step (x : Z) :
  0 <= x <= 97 -> Z.min 97 (x + 1) <= filter true x <= 97.
Proof.
  intros Hx. rewrite filter_unfold.
  assert (Hlo : Z.min 97 (x + 1) <= (x * 124 + 512) / 128)
    by (apply Z.div_le_lower_bound; lia).
  assert (Hhi : (x * 124 + 512) / 128 < 98)
    by (apply Z.div_lt_upper_bound; lia).
  rewrite Z.mod_small; lia.
Qed.

(** One step towards the floor. *)
Lemma filter_false_step (x : Z) :
  0 <= x <= 97 -> 0 <= filter false x <= Z.max 0 (x - 1).
Proof.
  intros Hx. rewrite filter_unfold.
  assert (Hlo : 0 <= (x * 124 + 0) / 128)
    by (apply Z.div_le_lower_bound; lia).
  assert (Hhi : (x * 124 + 0) / 128 < Z.max 0 (x - 1) + 1)
    by (apply Z.div_lt_upper_bound; lia).
  rewrite Z.mod_small; lia.
Qed.

Lemma filter_range (v : bool) (x : Z) :
  0 <= x <= 97 -> 0 <= filter v x <= 97.
Proof.
  intros Hx. destruct v.
  - pose proof (filter_true_step x Hx). lia.
  - pose proof (filter_false_step x Hx). lia.
Qed.

Lemma iter_fixed {A : Type} (f : A -> A) (x : A) (n : nat) :
  f x = x -> Nat.iter n f x = x.
Proof.
  intros Hf. induction n as [|n IH]; simpl.
  - reflexivity.
  - rewrite IH. exact Hf.
Qed.

(** Leaving the loop early changes nothing: a step that does not move the
    accumulator would be followed only by steps that do not move it. *)
Lemma low_pass_loop_iter (n : nat) (v : bool) (lp : Z) :
  debounce.low_pass_loop n v lp = Nat.iter n (filter v) lp.
Proof.
  revert lp. induction n as [|n IH]; intros lp.
  - reflexivity.
  - cbn [debounce.low_pass_loop]. rewrite Nat.iter_succ_r.
    destruct (filter v lp =? lp) eqn:E.
    + apply Z.eqb_eq in E. rewrite E. symmetry. apply iter_fixed. exact E.
    + apply IH.
Qed.

Lemma iter_filter_range (n : nat) (v : bool) (x : Z) :
  0 <= x <= 97 -> 0 <= Nat.iter n (filter v) x <= 97.
Proof.
  intros Hx. induction n as [|n IH]; simpl.
  - exact Hx.
  - apply filter_range. exact IH.
Qed.

Lemma iter_filter_true (n : nat) (x : Z) :
  0 <= x <= 97 -> Z.min 97 (x + Z.of_nat n) <= Nat.iter n (filter true) x.
Proof.
  intros Hx. induction n as [|n IH].
  - simpl. lia.
  - rewrite Nat.iter_succ.
    pose proof (iter_filter_range n true x Hx) as Hr.
    pose proof (filter_true_step _ Hr). lia.
Qed.

Lemma iter_filter_false (n : nat) (x : Z) :
  0 <= x <= 97 -> Nat.iter n (filter false) x <= Z.max 0 (x - Z.of_nat n).
Proof.
  intros Hx. induction n as [|n IH].
  - simpl. lia.
  - rewrite Nat.iter_succ.
    pose proof (iter_filter_range n false x Hx) as Hr.
    pose proof (filter_false_step _ Hr). lia.
Qed.

(** The accumulator of a filter never leaves the convergence range. *)
Lemma sample_low_pass_range (s : debounce.state) (v : bool) (now : Z) :
  0 <= debounce.m_low_pass s <= 97 ->
  0 <= debounce.m_low_pass (debounce.sample s v now) <= 97.
Proof.
  intros Hs. cbn [debounce.sample debounce.m_low_pass].
  rewrite low_pass_loop_iter. apply iter_filter_range. exact Hs.
Qed.

Lemma run_low_pass_range (trace : list (bool * Z)) (s : debounce.state) :
  0 <= debounce.m_low_pass s <= 97 ->
  0 <= debounce.m_low_pass (debounce.run s trace) <= 97.
Proof.
  revert s. induction trace as [|c rest IH]; intros s Hs.
  - exact Hs.
  - apply IH. apply sample_low_pass_range. exact Hs.
Qed.

Lemma init_low_pass (h : Z) : debounce.m_low_pass (debounce.init h) = 64.
Proof. reflexivity. Qed.

Lemma to_uint16_range (x : Z) : 0 <= to_uint16 x < 65536.
Proof. unfold to_uint16. apply Z.mod_pos_bound. lia. Qed.

(** Over a run with constant input the accumulator is the filter iterated
    once per elapsed tick. *)
Lemma run_constant_low_pass (v : bool) (trace : list (bool * Z))
                            (s : debounce.state) :
  Forall (fun c => fst c = v) trace ->
  debounce.m_low_pass (debounce.run s trace) =
  Nat.iter (Z.to_nat (debounce.elapsed (debounce.m_last_t s) trace))
           (filter v) (debounce.m_low_pass s).
Proof.
  intros Hall. revert s.
  induction Hall as [|c rest Hc Hrest IH]; intros s.
  - reflexivity.
  - change (debounce.run s (c :: rest))
      with (debounce.run (debounce.sample s (fst c) (snd c)) rest).
    rewrite IH. cbn [debounce.sample debounce.m_low_pass debounce.m_last_t
                     debounce.elapsed].
    rewrite low_pass_loop_iter, Hc.
    assert (Hpos : 0 <= debounce.elapsed (snd c) rest).
    { clear. generalize (snd c). induction rest as [|c' rest' IH']; intros l.
      - simpl. lia.
      - cbn [debounce.elapsed].
        pose proof (to_uint16_range (snd c' - l)).
        pose proof (IH' (snd c')). lia. }
    pose proof (to_uint16_range (snd c - debounce.m_last_t s)).
    rewrite Z2Nat.inj_add by lia.
    rewrite Nat.add_comm. symmetry. apply Nat.iter_add.
Qed.

(** C9.  [FLT_MAX] and [FLT_MIN] are the values [filter_convergence] returns
    from the midpoint, both are fixed points of the filter update, and in
    every filter state reached from a constructed filter a run of calls with
    constant input that spans at least [FLT_MAX - FLT_MIN] ticks leaves the
    accumulator at [FLT_MAX] (input true) or at [FLT_MIN] (input false). *)
Theorem low_pass_converges (h : Z) (pre run : list (bool * Z)) (v : bool) :
  let s := debounce.run (debounce.init h) pre in
  Forall (fun c => fst c = v) run ->
  FLT_MAX - FLT_MIN <= debounce.elapsed (debounce.m_last_t s) run ->
  debounce.m_low_pass (debounce.run s run) = (if v then FLT_MAX else FLT_MIN)
  /\ filter_convergence convergence_fuel true (FIXED_POINT_BASE / 2)
       = Some FLT_MAX
  /\ filter_convergence convergence_fuel false (FIXED_POINT_BASE / 2)
       = Some FLT_MIN
  /\ filter true FLT_MAX = FLT_MAX
  /\ filter false FLT_MIN = FLT_MIN.
Proof.
  intros s Hall Hlong.
  split; [|repeat split; reflexivity].
  rewrite (run_constant_low_pass v run s Hall).
  assert (Hs : 0 <= debounce.m_low_pass s <= 97).
  { subst s. apply run_low_pass_range. rewrite init_low_pass. lia. }
  rewrite FLT_MAX_value, FLT_MIN_value in *.
  set (n := Z.to_nat (debounce.elapsed (debounce.m_last_t s) run)) in *.
  assert (Hn : 97 <= Z.of_nat n) by (subst n; lia).
  pose proof (iter_filter_range n v _ Hs) as Hr.
  destruct v.
  - pose proof (iter_filter_true n _ Hs). lia.
  - pose proof (iter_filter_false n _ Hs). lia.
Qed.

Lemma low_pass_converges_witness :
  debounce.m_low_pass
    (debounce.run (debounce.run (debounce.init 64) (debounce.hold 150 false 1))
                  (debounce.hold 100 true 151)) = FLT_MAX.
Proof.
  apply (low_pass_converges 64 (debounce.hold 150 false 1)
                            (debounce.hold 100 true 151) true).
  - repeat constructor.
  - vm_compute. discriminate.
Defined.

(** ** Phase recovery *)

Lemma run_cons (s : debounce.state) (c : bool * Z) (rest : list (bool * Z)) :
  debounce.run s (c :: rest)
  = debounce.run (debounce.sample s (fst c) (snd c)) rest.
Proof. reflexivity. Qed.

(** An edge always carries the time of the last raw state change. *)
Lemma trigger_edge_time (lp hyst last_change : Z) (r : debounce.result) :
  debounce.edge (debounce.trigger lp hyst last_change r) = true ->
  debounce.t (debounce.trigger lp hyst last_change r) = last_change.
Proof.
  unfold debounce.trigger.
  destruct ((lp >? FLT_MAX - hyst) && negb (debounce.value r));
    [reflexivity|].
  destruct ((lp <? FLT_MIN + hyst) && debounce.value r);
    [reflexivity|].
  cbn. discriminate.
Qed.

Lemma run_edge_time (trace : list (bool * Z)) (s : debounce.state) :
  trace <> [] ->
  debounce.edge (debounce.m_result (debounce.run s trace)) = true ->
  debounce.t (debounce.m_result (debounce.run s trace))
  = debounce.m_last_state_change (debounce.run s trace).
Proof.
  revert s. induction trace as [|c rest IH]; intros s Hne; [congruence|].
  rewrite run_cons. destruct rest as [|c' rest'].
  - cbn [debounce.run fold_left debounce.sample debounce.m_result
         debounce.m_last_state_change].
    apply trigger_edge_time.
  - apply IH. discriminate.
Qed.

(** While the raw input keeps its value the recorded change time stays. *)
Lemma run_constant_last_change (v : bool) (trace : list (bool * Z))
                               (s : debounce.state) :
  Forall (fun c => fst c = v) trace ->
  debounce.m_last_input_value s = v ->
  debounce.m_last_state_change (debounce.run s trace)
  = debounce.m_last_state_change s.
Proof.
  intros Hall. revert s.
  induction Hall as [|c rest Hc Hrest IH]; intros s Hs; [reflexivity|].
  rewrite run_cons, IH by exact Hc.
  cbn [debounce.sample debounce.m_last_state_change].
  rewrite Hc, Hs, Bool.eqb_reflx. reflexivity.
Qed.

(** C4.  The raw input flips to [v] at tick [T] and keeps that value over
    the calls [rest]; if the last of these calls reports an edge of the
    debounced output, the event carries the timestamp [T] of the raw flip,
    and not the tick of the reporting call when that tick is a later one. *)
Theorem edge_timestamp_is_raw_flip (s : debounce.state) (v : bool) (T : Z)
                                   (rest : list (bool * Z)) :
  debounce.m_last_input_value s = negb v ->
  Forall (fun c => fst c = v) rest ->
  debounce.edge (debounce.m_result (debounce.run s ((v, T) :: rest))) = true ->
  debounce.t (debounce.m_result (debounce.run s ((v, T) :: rest))) = T
  /\ (debounce.m_last_t (debounce.run s ((v, T) :: rest)) <> T ->
      debounce.t (debounce.m_result (debounce.run s ((v, T) :: rest)))
      <> debounce.m_last_t (debounce.run s ((v, T) :: rest))).
Proof.
  intros Hflip Hall Hedge.
  assert (Ht : debounce.t (debounce.m_result (debounce.run s ((v, T) :: rest)))
               = T).
  { rewrite run_edge_time by (discriminate || exact Hedge).
    rewrite run_cons, (run_constant_last_change v) by (exact Hall || reflexivity).
    cbn [debounce.sample debounce.m_last_state_change fst snd].
    rewrite Hflip. destruct v; reflexivity. }
  split; [exact Ht|]. rewrite Ht. intros Hne Heq. apply Hne. symmetry. exact Heq.
Qed.

(** ** Hysteresis and the delay of a flip *)


Lemma sample_same_filter (s1 s2 : debounce.state) (v : bool) (now : Z) :
  same_filter s1 s2 ->
  same_filter (debounce.sample s1 v now) (debounce.sample s2 v now).
Proof.
  intros (Hlp & Ht & Hc & Hv). unfold same_filter.
  cbn [debounce.sample debounce.m_low_pass debounce.m_last_t
       debounce.m_last_state_change debounce.m_last_input_value].
  rewrite Hlp, Ht, Hc, Hv. repeat split.
Qed.

Lemma run_same_filter (trace : list (bool * Z)) (s1 s2 : debounce.state) :
  same_filter s1 s2 ->
  same_filter (debounce.run s1 trace) (debounce.run s2 trace).
Proof.
  revert s1 s2. induction trace as [|c rest IH]; intros s1 s2 H; [exact H|].
  rewrite !run_cons. apply IH. apply sample_same_filter. exact H.
Qed.

Lemma run_hysteresis (trace : list (bool * Z)) (s : debounce.state) :
  debounce.m_hysteresis (debounce.run s trace) = debounce.m_hysteresis s.
Proof.
  revert s. induction trace as [|c rest IH]; intros s; [reflexivity|].
  rewrite run_cons, IH. reflexivity.
Qed.

Lemma init_hysteresis (h : Z) :
  0 <= h <= 255 -> debounce.m_hysteresis (debounce.init h) = h * 97 / 256.
Proof.
  intros Hh. cbn [debounce.init debounce.m_hysteresis].
  rewrite FLT_MAX_value, FLT_MIN_value, Z.shiftr_div_pow2 by lia.
  change (2 ^ 8) with 256. rewrite Z.sub_0_r. unfold to_uint8.
  apply Z.mod_small. split.
  - apply Z.div_le_lower_bound; lia.
  - apply Z.div_lt_upper_bound; lia.
Qed.

Lemma init_hysteresis_mono (h1 h2 : Z) :
  0 <= h1 <= h2 -> h2 <= 255 ->
  debounce.m_hysteresis (debounce.init h1)
  <= debounce.m_hysteresis (debounce.init h2).
Proof.
  intros H1 H2. rewrite !init_hysteresis by lia.
  apply Z.div_le_mono; lia.
Qed.

(** The trigger on an output that still shows the old level [negb v]. *)
Lemma trigger_pending (lp hyst last_change : Z) (r : debounce.result)
                      (v : bool) :
  debounce.value r = negb v ->
  debounce.edge (debounce.trigger lp hyst last_change r)
  = (if v then lp >? FLT_MAX - hyst else lp <? FLT_MIN + hyst)
  /\ (debounce.edge (debounce.trigger lp hyst last_change r) = false ->
      debounce.value (debounce.trigger lp hyst last_change r) = negb v).
Proof.
  intros Hr. unfold debounce.trigger. rewrite Hr.
  destruct v; cbn [negb]; rewrite ?andb_true_r, ?andb_false_r.
  - destruct (lp >? FLT_MAX - hyst); cbn; rewrite ?Hr; split; auto; discriminate.
  - destruct (lp <? FLT_MIN + hyst); cbn; rewrite ?Hr; split; auto; discriminate.
Qed.

Lemma threshold_mono (v : bool) (lp h1 h2 : Z) :
  h1 <= h2 ->
  (if v then lp >? FLT_MAX - h1 else lp <? FLT_MIN + h1) = true ->
  (if v then lp >? FLT_MAX - h2 else lp <? FLT_MIN + h2) = true.
Proof. destruct v; lia. Qed.

Lemma ticks_to_edge_mono (v : bool) (fuel : nat) :
  forall (s1 s2 : debounce.state) (now : Z) (k1 : nat),
    same_filter s1 s2 ->
    debounce.m_hysteresis s1 <= debounce.m_hysteresis s2 ->
    debounce.value (debounce.m_result s1) = negb v ->
    debounce.value (debounce.m_result s2) = negb v ->
    debounce.ticks_to_edge fuel s1 v now = Some k1 ->
    exists k2, debounce.ticks_to_edge fuel s2 v now = Some k2 /\ (k2 <= k1)%nat.
Proof.
  induction fuel as [|fuel IH]; intros s1 s2 now k1 Hsame Hh Hv1 Hv2 Hk1;
    [discriminate|].
  cbn [debounce.ticks_to_edge] in *.
  pose proof (sample_same_filter s1 s2 v now Hsame) as Hsame'.
  remember (debounce.sample s1 v now) as s1' eqn:E1.
  remember (debounce.sample s2 v now) as s2' eqn:E2.
  assert (Hr1 : debounce.m_result s1'
                = debounce.trigger (debounce.m_low_pass s1')
                    (debounce.m_hysteresis s1)
                    (debounce.m_last_state_change s1') (debounce.m_result s1))
    by (subst s1'; reflexivity).
  assert (Hr2 : debounce.m_result s2'
                = debounce.trigger (debounce.m_low_pass s1')
                    (debounce.m_hysteresis s2)
                    (debounce.m_last_state_change s1') (debounce.m_result s2)).
  { destruct Hsame' as (-> & _ & -> & _). subst s2'. reflexivity. }
  destruct (trigger_pending (debounce.m_low_pass s1') (debounce.m_hysteresis s1)
              (debounce.m_last_state_change s1') _ v Hv1) as [He1 Hn1].
  destruct (trigger_pending (debounce.m_low_pass s1') (debounce.m_hysteresis s2)
              (debounce.m_last_state_change s1') _ v Hv2) as [He2 Hn2].
  rewrite <- Hr1 in He1, Hn1. rewrite <- Hr2 in He2, Hn2.
  destruct (debounce.edge (debounce.m_result s2')) eqn:Ee2.
  - exists O. split; [reflexivity|lia].
  - destruct (debounce.edge (debounce.m_result s1')) eqn:Ee1.
    + symmetry in He1. apply (threshold_mono v _ _ _ Hh) in He1. congruence.
    + destruct (debounce.ticks_to_edge fuel s1' v (to_uint16 (now + 1)))
        as [k1'|] eqn:Ek1; [|discriminate].
      injection Hk1 as <-.
      destruct (IH s1' s2' (to_uint16 (now + 1)) k1') as (k2' & Hk2 & Hle); auto.
      * subst s1' s2'. exact Hh.
      * exists (S k2'). rewrite Hk2. split; [reflexivity|lia].
Qed.

(** C3 as the code has it.  A filter constructed with the larger hysteresis
    never needs more ticks to report the edge that follows a raw transition:
    when both outputs still show the old level at the transition and the
    filter with hysteresis [h1] reports the edge after [k1] ticks, the filter
    with hysteresis [h2 >= h1] reports it after at most [k1] ticks. *)
Theorem larger_hysteresis_flips_no_later
    (fuel : nat) (pre : list (bool * Z)) (v : bool) (T h1 h2 : Z) (k1 : nat) :
  0 <= h1 <= h2 -> h2 <= 255 ->
  debounce.value (debounce.m_result (debounce.run (debounce.init h1) pre))
    = negb v ->
  debounce.value (debounce.m_result (debounce.run (debounce.init h2) pre))
    = negb v ->
  debounce.flip_delay fuel h1 pre v T = Some k1 ->
  exists k2, debounce.flip_delay fuel h2 pre v T = Some k2 /\ (k2 <= k1)%nat.
Proof.
  intros H1 H2 Hv1 Hv2 Hk1. unfold debounce.flip_delay in *.
  apply (ticks_to_edge_mono v fuel (debounce.run (debounce.init h1) pre));
    auto.
  - apply run_same_filter. repeat split.
  - rewrite !run_hysteresis. apply init_hysteresis_mono; assumption.
Qed.

(** ** Validation of a telegram *)

Lemma field_range (off : Z) (n : nat) (b : Z) :
  0 <= data.field off (Z.of_nat n) b < 2 ^ Z.of_nat n.
Proof.
  unfold data.field. rewrite Z.land_ones by lia.
  apply Z.mod_pos_bound. lia.
Qed.

Lemma field_testbit (off : Z) (n : nat) (b i : Z) :
  0 <= off -> 0 <= i ->
  Z.testbit (data.field off (Z.of_nat n) b) i
  = Z.testbit b (i + off) && (i <? Z.of_nat n).
Proof.
  intros Hoff Hi. unfold data.field.
  rewrite Z.land_spec, Z.shiftr_spec, Z.testbit_ones_nonneg by lia.
  reflexivity.
Qed.

Lemma count_bits_ext (n : nat) (x y d : Z) :
  forall from,
    (forall i, from <= i < from + Z.of_nat n ->
               Z.testbit x i = Z.testbit y (i + d)) ->
    count_bits n x from = count_bits n y (from + d).
Proof.
  induction n as [|n IH]; intros from Hbits; [reflexivity|].
  cbn [count_bits]. rewrite Hbits by lia.
  rewrite (IH (from + 1)) by (intros i Hi; apply Hbits; lia).
  replace (from + 1 + d) with (from + d + 1) by lia. reflexivity.
Qed.

Lemma count_bits_clear (n : nat) (x : Z) :
  forall from,
    (forall i, from <= i < from + Z.of_nat n -> Z.testbit x i = false) ->
    count_bits n x from = 0.
Proof.
  induction n as [|n IH]; intros from Hbits; [reflexivity|].
  cbn [count_bits]. rewrite Hbits by lia.
  rewrite IH by (intros i Hi; apply Hbits; lia). reflexivity.
Qed.

Lemma count_bits_app (n m : nat) (x : Z) :
  forall from,
    count_bits (n + m) x from
    = count_bits n x from + count_bits m x (from + Z.of_nat n).
Proof.
  induction n as [|n IH]; intros from.
  - cbn [count_bits Nat.add Z.of_nat]. rewrite Z.add_0_r. reflexivity.
  - cbn [count_bits Nat.add]. rewrite IH.
    replace (from + 1 + Z.of_nat n) with (from + Z.of_nat (S n)) by lia. lia.
Qed.

(** The population count reads the low 32 bits only. *)
Lemma popcount_low_bits (x : Z) : popcount x = count_bits 32 x 0.
Proof.
  unfold popcount. rewrite <- (Z.add_0_r 0) at 2.
  apply count_bits_ext. intros i Hi. unfold to_uint32.
  change 4294967296 with (2 ^ 32).
  rewrite Z.mod_pow2_bits_low by lia. rewrite Z.add_0_r. reflexivity.
Qed.

Lemma parity_popcount (x : Z) : parity x = popcount x mod 2.
Proof.
  unfold parity, to_uint8. change 1 with (Z.ones 1) at 1.
  rewrite Z.land_ones by lia. change (2 ^ 1) with 2.
  apply Z.mod_small. pose proof (Z.mod_pos_bound (popcount x) 2). lia.
Qed.

(** The parity of a field of at most 32 bits is the parity of the number of
    set bits in the bit range of the register that the field covers. *)
Lemma parity_field (off : Z) (n : nat) (b : Z) :
  0 <= off -> (n <= 32)%nat ->
  parity (data.field off (Z.of_nat n) b) = count_bits n b off mod 2.
Proof.
  intros Hoff Hn. rewrite parity_popcount, popcount_low_bits.
  replace 32%nat with (n + (32 - n))%nat by lia.
  rewrite count_bits_app.
  rewrite (count_bits_ext n _ b off 0).
  - rewrite (count_bits_clear (32 - n)).
    + rewrite Z.add_0_l, Z.add_0_r. reflexivity.
    + intros i Hi. rewrite field_testbit by lia.
      replace (i <? Z.of_nat n) with false by lia. apply andb_false_r.
  - intros i Hi. rewrite field_testbit by lia.
    replace (i <? Z.of_nat n) with true by lia. apply andb_true_r.
Qed.

Lemma DATE_MASK_bits : data.DATE_MASK = Z.shiftl (Z.ones 22) 36.
Proof. reflexivity. Qed.

(** The argument of the date parity holds bits 36..57 of the register. *)
Lemma parity_date_range (b : Z) :
  parity (to_uint32 (Z.shiftr (Z.land b data.DATE_MASK) 32))
  = count_bits 22 b 36 mod 2.
Proof.
  rewrite parity_popcount, popcount_low_bits.
  set (x := to_uint32 _).
  assert (Hx : forall i, 0 <= i < 32 ->
             Z.testbit x i
             = Z.testbit b (i + 32) && ((4 <=? i) && (i <? 26))).
  { intros i Hi. subst x. unfold to_uint32.
    change 4294967296 with (2 ^ 32).
    rewrite Z.mod_pow2_bits_low, Z.shiftr_spec, Z.land_spec by lia.
    f_equal. rewrite DATE_MASK_bits.
    destruct (Z.leb_spec 4 i) as [H4|H4].
    - rewrite Z.shiftl_spec, Z.testbit_ones_nonneg by lia. cbn [andb]. lia.
    - rewrite Z.shiftl_spec_low by lia. reflexivity. }
  change 32%nat with (4 + (22 + 6))%nat. rewrite !count_bits_app.
  rewrite (count_bits_clear 4), (count_bits_clear 6).
  - rewrite (count_bits_ext 22 x b 32).
    + rewrite Z.add_0_l, Z.add_0_r. reflexivity.
    + intros i Hi. rewrite Hx by lia.
      replace ((4 <=? i) && (i <? 26)) with true by lia. apply andb_true_r.
  - intros i Hi. rewrite Hx by lia.
    replace ((4 <=? i) && (i <? 26)) with false by lia. apply andb_false_r.
  - intros i Hi. rewrite Hx by lia.
    replace ((4 <=? i) && (i <? 26)) with false by lia. apply andb_false_r.
Qed.

(** A property of all bytes is decided by running through the 256 values. *)
Lemma forall_byte (p : Z -> bool) :
  forallb p (map Z.of_nat (seq 0 256)) = true ->
  forall x, 0 <= x < 256 -> p x = true.
Proof.
  intros Hall x Hx. rewrite forallb_forall in Hall. apply Hall.
  rewrite <- (Z2Nat.id x) by lia. apply in_map. apply in_seq. lia.
Qed.

Lemma bcd_digits (x : Z) :
  0 <= x < 256 ->
  to_uint8 (Z.shiftr (Z.land x 240) 4) = x / 16
  /\ to_uint8 (Z.shiftr (Z.land x 15) 0) = x mod 16
  /\ data.decode_bcd x = 10 * (x / 16) + x mod 16.
Proof.
  intros Hx.
  pose proof (forall_byte
    (fun x => (to_uint8 (Z.shiftr (Z.land x 240) 4) =? x / 16)
              && (to_uint8 (Z.shiftr (Z.land x 15) 0) =? x mod 16)
              && (data.decode_bcd x =? 10 * (x / 16) + x mod 16))) as Hall.
  specialize (Hall ltac:(vm_compute; reflexivity) x Hx). cbv beta in Hall.
  apply andb_prop in Hall as [Hall H3]. apply andb_prop in Hall as [H1 H2].
  repeat split; apply Z.eqb_eq; assumption.
Qed.

(** What [valid_bcd] accepts: two decimal digits, not beyond the maximum. *)
Lemma valid_bcd_sound (max_hi max_lo x : Z) :
  0 <= x < 256 ->
  valid_bcd max_hi max_lo x = true ->
  x / 16 <= 9 /\ x mod 16 <= 9
  /\ x / 16 <= max_hi /\ (x / 16 = max_hi -> x mod 16 <= max_lo).
Proof.
  intros Hx. unfold valid_bcd.
  destruct (bcd_digits x Hx) as (-> & -> & _).
  destruct (x / 16 >? 9) eqn:E1; [discriminate|].
  destruct (x mod 16 >? 9) eqn:E2; [discriminate|]. cbn [orb].
  destruct (x / 16 >? max_hi) eqn:E3; [discriminate|].
  destruct (x / 16 =? max_hi) eqn:E4; cbn [andb].
  - destruct (x mod 16 >? max_lo) eqn:E5; [discriminate|]. lia.
  - lia.
Qed.

Lemma field_byte (off : Z) (n : nat) (b : Z) :
  (n <= 8)%nat -> 0 <= data.field off (Z.of_nat n) b < 256.
Proof.
  intros Hn. pose proof (field_range off n b).
  assert (2 ^ Z.of_nat n <= 2 ^ 8) by (apply Z.pow_le_mono_r; lia).
  change (2 ^ 8) with 256 in *. lia.
Qed.

(** C5.  A register that passes the full validation has the minute-start
    bit 0, the time-start bit 1 and exactly one of the CEST and CET bits
    set; each parity bit is the parity of the number of set bits in the bit
    range it covers (minute: bits 21..27, hour: bits 29..34, date: bits
    36..57); every BCD field holds two digits of at most 9; and the decoded
    values obey minute <= 59, hour <= 23, 1 <= day <= 31, day of week >= 1,
    1 <= month <= 12 and year <= 99. *)
Theorem valid_telegram_invariants (b : Z) :
  0 <= b < 2 ^ 64 ->
  data.valid false b = true ->
  data.minute_start b = 0
  /\ data.time_start b = 1
  /\ data.cest b + data.cet b = 1
  /\ data.parity_minute b = count_bits 7 b 21 mod 2
  /\ data.parity_hour b = count_bits 6 b 29 mod 2
  /\ data.parity_date b = count_bits 22 b 36 mod 2
  /\ Forall (fun x => x / 16 <= 9 /\ x mod 16 <= 9)
            [data.minute b; data.hour b; data.day b; data.month b;
             data.year b]
  /\ data.get_minute b <= 59
  /\ data.get_hour b <= 23
  /\ 1 <= data.get_day b <= 31
  /\ 1 <= data.get_day_of_week b
  /\ 1 <= data.get_month b <= 12
  /\ data.decode_bcd (data.year b) <= 99.
Proof.
  intros _ Hvalid. unfold data.valid in Hvalid. cbn [orb] in Hvalid.
  repeat (apply andb_prop in Hvalid as [Hvalid ?]).
  repeat match goal with
         | H : (_ =? _) = true |- _ => apply Z.eqb_eq in H
         | H : (_ >? _) = true |- _ => apply Z.gtb_lt in H
         | H : negb _ = true |- _ => apply negb_true_iff, Z.eqb_neq in H
         end.
  pose proof (field_byte 21 7 b ltac:(lia)) as Rmin.
  pose proof (field_byte 29 6 b ltac:(lia)) as Rhour.
  pose proof (field_byte 36 6 b ltac:(lia)) as Rday.
  pose proof (field_byte 45 5 b ltac:(lia)) as Rmonth.
  pose proof (field_byte 50 8 b ltac:(lia)) as Ryear.
  pose proof (field_range 17 1 b) as Rcest.
  pose proof (field_range 18 1 b) as Rcet.
  change (data.field 21 (Z.of_nat 7)) with data.minute in *.
  change (data.field 29 (Z.of_nat 6)) with data.hour in *.
  change (data.field 36 (Z.of_nat 6)) with data.day in *.
  change (data.field 45 (Z.of_nat 5)) with data.month in *.
  change (data.field 50 (Z.of_nat 8)) with data.year in *.
  change (data.field 17 (Z.of_nat 1)) with data.cest in *.
  change (data.field 18 (Z.of_nat 1)) with data.cet in *.
  repeat match goal with
         | H : valid_bcd _ _ _ = true |- _ =>
             apply valid_bcd_sound in H; [|assumption]
         end.
  unfold data.get_minute, data.get_hour, data.get_day, data.get_month,
    data.get_day_of_week.
  destruct (bcd_digits _ Rmin) as (_ & _ & ->).
  destruct (bcd_digits _ Rhour) as (_ & _ & ->).
  destruct (bcd_digits _ Rday) as (_ & _ & ->).
  destruct (bcd_digits _ Rmonth) as (_ & _ & ->).
  destruct (bcd_digits _ Ryear) as (_ & _ & ->).
  assert (Hpm : data.parity_minute b = count_bits 7 b 21 mod 2).
  { rewrite <- (parity_field 21 7) by lia. assumption. }
  assert (Hph : data.parity_hour b = count_bits 6 b 29 mod 2).
  { rewrite <- (parity_field 29 6) by lia. assumption. }
  assert (Hpd : data.parity_date b = count_bits 22 b 36 mod 2).
  { rewrite <- parity_date_range. assumption. }
  change (2 ^ Z.of_nat 1) with 2 in *.
  pose proof (Z.mod_pos_bound (data.minute b) 16).
  pose proof (Z.mod_pos_bound (data.hour b) 16).
  pose proof (Z.mod_pos_bound (data.day b) 16).
  pose proof (Z.mod_pos_bound (data.month b) 16).
  pose proof (Z.mod_pos_bound (data.year b) 16).
  pose proof (Z.div_pos (data.day b) 16).
  pose proof (Z.div_pos (data.month b) 16).
  pose proof (Z.div_mod (data.day b) 16).
  pose proof (Z.div_mod (data.month b) 16).
  repeat split; try assumption; try lia.
  repeat constructor; lia.
Qed.

(** ** The decoder *)

Lemma sample_unfold (d : decoder.t) (v : bool) (now : Z) :
  decoder.sample d v now =
  let d0 := decoder.set_debouncer d
              (debounce.sample (decoder.m_debouncer d) v now) in
  let ev := decoder.event d v now in
  let dt := decoder.interval d v now in
  if debounce.edge ev then
    let '(d1, res) :=
      if negb (debounce.value ev)
         && (dt >? decoder.SYNC_HIGH_TIME - decoder.SLACK)
      then decoder.sync_event d0 ev
      else (d0, decoder.no_result) in
    match (if debounce.value ev
              && (dt >? decoder.LOW_ZERO_TIME - decoder.SLACK)
           then decoder.bit_pulse d1 dt
           else Some d1) with
    | Some d2 => decoder.Done (decoder.set_last_t d2 (debounce.t ev)) res
    | None => decoder.ShiftOutOfRange (decoder.m_state d1)
    end
  else decoder.Done d0 decoder.no_result.
Proof. reflexivity. Qed.


Lemma sample_boundary (d : decoder.t) (v : bool) (now : Z) :
  minute_boundary d v now ->
  decoder.sample d v now =
  decoder.Done
    (decoder.set_last_t
       (fst (decoder.sync_event
               (decoder.set_debouncer d
                  (debounce.sample (decoder.m_debouncer d) v now))
               (decoder.event d v now)))
       (debounce.t (decoder.event d v now)))
    (snd (decoder.sync_event
            (decoder.set_debouncer d
               (debounce.sample (decoder.m_debouncer d) v now))
            (decoder.event d v now))).
Proof.
  intros (Hedge & Hfall & Hdt). rewrite sample_unfold. cbv zeta.
  rewrite Hedge, Hfall. cbn [negb andb].
  replace (decoder.interval d v now
           >? decoder.SYNC_HIGH_TIME - decoder.SLACK) with true by lia.
  destruct (decoder.sync_event _ _) as [d1 res]. reflexivity.
Qed.

(** C1.  With 59 bits accumulated, a minute boundary whose working register
    passes the full validation returns [has_complete], copies the working
    register into the record read by [get_data] and sets the phase read by
    [get_phase] to the timestamp of the falling edge. *)
Theorem complete_telegram_is_committed (d : decoder.t) (v : bool) (now : Z) :
  decoder.m_state d = 59 ->
  minute_boundary d v now ->
  data.valid false (decoder.m_data_new d) = true ->
  exists d',
    decoder.sample d v now = decoder.Done d' decoder.has_complete
    /\ decoder.get_data d' = decoder.m_data_new d
    /\ decoder.get_phase d' = debounce.t (decoder.event d v now).
Proof.
  intros Hst Hb Hvalid. rewrite (sample_boundary d v now Hb).
  unfold decoder.sync_event.
  cbn [decoder.set_debouncer decoder.m_state decoder.m_data_new].
  rewrite Hst, Hvalid. cbn.
  eexists. repeat split.
Qed.

(** C2.  With fewer than 59 bits accumulated, a minute boundary validates
    the working register shifted left by [59 - bit_index] (within 64 bits)
    in the time-and-date-only mode, which does not look at the first 19 bits
    of the register; the call returns [has_time_and_date] when that
    validation succeeds and [no_result] otherwise, never [has_complete], and
    on success the shifted register and the edge timestamp are committed. *)
Theorem partial_telegram_is_realigned (d : decoder.t) (v : bool) (now : Z) :
  decoder.m_state d < 59 ->
  minute_boundary d v now ->
  exists d' res,
    decoder.sample d v now = decoder.Done d' res
    /\ res = (if data.valid true (realigned d)
              then decoder.has_time_and_date else decoder.no_result)
    /\ res <> decoder.has_complete
    /\ (data.valid true (realigned d) = true ->
        decoder.get_data d' = realigned d
        /\ decoder.get_phase d' = debounce.t (decoder.event d v now))
    /\ (forall b b', Z.shiftr b 19 = Z.shiftr b' 19 ->
                     data.valid true b = data.valid true b').
Proof.
  intros Hst Hb. rewrite (sample_boundary d v now Hb).
  unfold decoder.sync_event.
  cbn [decoder.set_debouncer decoder.m_state decoder.m_data_new].
  replace (decoder.m_state d <? 59) with true by lia.
  fold (realigned d).
  do 2 eexists. split; [reflexivity|]. cbn [snd fst].
  repeat split.
  - destruct (data.valid true (realigned d)); discriminate.
  - rewrite H. reflexivity.
  - rewrite H. reflexivity.
  - intros b b' Hhigh.
    assert (Hfield : forall off w, 19 <= off ->
              data.field off w b = data.field off w b').
    { intros off w Hoff. unfold data.field.
      replace off with (19 + (off - 19)) by lia.
      rewrite <- !Z.shiftr_shiftr by lia. rewrite Hhigh. reflexivity. }
    assert (Hdate : Z.shiftr (Z.land b data.DATE_MASK) 32
                    = Z.shiftr (Z.land b' data.DATE_MASK) 32).
    { rewrite !Z.shiftr_land. change 32 with (19 + 13).
      rewrite <- !(Z.shiftr_shiftr _ 19 13) by lia.
      rewrite Hhigh. reflexivity. }
    unfold data.valid, data.time_start, data.parity_minute, data.minute,
      data.parity_hour, data.hour, data.parity_date, data.day,
      data.day_of_week, data.month, data.year.
    cbn [orb]. rewrite Hdate, !(Hfield _ _) by lia. reflexivity.
Qed.

(** C6.  A minute boundary whose validation fails returns [no_result] and
    leaves the committed record and phase as they were. *)
Theorem failed_validation_keeps_snapshot (d : decoder.t) (v : bool) (now : Z) :
  minute_boundary d v now ->
  (if decoder.m_state d <? 59
   then data.valid true (realigned d)
   else data.valid false (decoder.m_data_new d)) = false ->
  exists d',
    decoder.sample d v now = decoder.Done d' decoder.no_result
    /\ decoder.get_data d' = decoder.get_data d
    /\ decoder.get_phase d' = decoder.get_phase d.
Proof.
  intros Hb Hfail. rewrite (sample_boundary d v now Hb).
  unfold decoder.sync_event.
  cbn [decoder.set_debouncer decoder.m_state decoder.m_data_new].
  fold (realigned d).
  destruct (decoder.m_state d <? 59); rewrite Hfail; cbn;
    eexists; repeat split.
Qed.

(** ** Bit pulses *)

Lemma sample_rising (d : decoder.t) (v : bool) (now : Z) :
  rising_edge d v now ->
  decoder.sample d v now =
  match (if decoder.interval d v now
            >? decoder.LOW_ZERO_TIME - decoder.SLACK
         then decoder.bit_pulse
                (decoder.set_debouncer d
                   (debounce.sample (decoder.m_debouncer d) v now))
                (decoder.interval d v now)
         else Some (decoder.set_debouncer d
                      (debounce.sample (decoder.m_debouncer d) v now))) with
  | Some d2 =>
      decoder.Done (decoder.set_last_t d2 (debounce.t (decoder.event d v now)))
                   decoder.no_result
  | None => decoder.ShiftOutOfRange (decoder.m_state d)
  end.
Proof.
  intros (Hedge & Hrise). rewrite sample_unfold. cbv zeta.
  rewrite Hedge, Hrise. cbn [negb andb]. reflexivity.
Qed.

Lemma sync_event_result (d : decoder.t) (ev : debounce.result) :
  snd (decoder.sync_event d ev) = decoder.no_result
  \/ snd (decoder.sync_event d ev) = decoder.has_time_and_date
  \/ snd (decoder.sync_event d ev) = decoder.has_complete.
Proof.
  unfold decoder.sync_event.
  destruct (decoder.m_state d <? 59).
  - destruct (data.valid true _); cbn; auto.
  - destruct (data.valid false _); cbn; auto.
Qed.

(** A call that does not see a rising edge always completes. *)
Lemma sample_not_rising (d : decoder.t) (v : bool) (now : Z) :
  ~ rising_edge d v now ->
  exists d' res, decoder.sample d v now = decoder.Done d' res.
Proof.
  intros Hnr. rewrite sample_unfold. cbv zeta.
  destruct (debounce.edge (decoder.event d v now)) eqn:Hedge;
    [|do 2 eexists; reflexivity].
  destruct (debounce.value (decoder.event d v now)) eqn:Hval.
  - exfalso. apply Hnr. split; assumption.
  - cbn [negb andb].
    destruct (decoder.interval d v now >? _);
      [destruct (decoder.sync_event _ _) as [d1 res]|];
      do 2 eexists; reflexivity.
Qed.

Lemma rising_edge_dec (d : decoder.t) (v : bool) (now : Z) :
  rising_edge d v now \/ ~ rising_edge d v now.
Proof.
  unfold rising_edge.
  destruct (debounce.edge (decoder.event d v now));
    destruct (debounce.value (decoder.event d v now));
    (left; split; reflexivity) || (right; intros [? ?]; discriminate).
Qed.

Lemma sample_result (d : decoder.t) (v : bool) (now : Z)
                    (d' : decoder.t) (res : decoder.state) :
  decoder.sample d v now = decoder.Done d' res ->
  res = decoder.no_result \/ res = decoder.has_time_and_date
  \/ res = decoder.has_complete.
Proof.
  rewrite sample_unfold. cbv zeta.
  destruct (debounce.edge (decoder.event d v now));
    [|intros [= _ <-]; auto].
  destruct (negb _ && _).
  - pose proof (sync_event_result
                  (decoder.set_debouncer d
                     (debounce.sample (decoder.m_debouncer d) v now))
                  (decoder.event d v now)) as Hres.
    destruct (decoder.sync_event _ _) as [d1 res1]. cbn [snd] in Hres.
    destruct (debounce.value _ && _); [destruct (decoder.bit_pulse _ _)|];
      intros [= _ <-] || discriminate; exact Hres.
  - destruct (debounce.value _ && _); [destruct (decoder.bit_pulse _ _)|];
      intros [= _ <-] || discriminate; auto.
Qed.

(** The shift is out of range exactly on a one pulse at an index of 64 or
    more; the amount reported is the index. *)
Lemma sample_out_of_range (d : decoder.t) (v : bool) (now n : Z) :
  decoder.sample d v now = decoder.ShiftOutOfRange n
  <-> rising_edge d v now
      /\ decoder.LOW_ONE_TIME - decoder.SLACK < decoder.interval d v now
      /\ 64 <= decoder.m_state d
      /\ n = decoder.m_state d.
Proof.
  destruct (rising_edge_dec d v now) as [Hr|Hnr].
  - rewrite (sample_rising d v now Hr). unfold decoder.bit_pulse.
    cbn [decoder.set_debouncer decoder.m_state decoder.m_data_new].
    change (decoder.LOW_ZERO_TIME - decoder.SLACK) with 50.
    change (decoder.LOW_ONE_TIME - decoder.SLACK) with 150.
    destruct (decoder.interval d v now >? 50) eqn:E50.
    + destruct (decoder.interval d v now >? 150) eqn:E150.
      * destruct (decoder.m_state d <? 64) eqn:E64.
        -- split; [discriminate|]. intros (_ & _ & H64 & _). lia.
        -- split.
           ++ intros [= <-]. repeat split; try apply Hr; lia.
           ++ intros (_ & _ & _ & ->). reflexivity.
      * split; [discriminate|]. intros (_ & H150 & _). lia.
    + split; [discriminate|]. intros (_ & H150 & _). lia.
  - destruct (sample_not_rising d v now Hnr) as (d' & res & ->).
    split; [discriminate|]. intros (Hr & _). contradiction.
Qed.

Lemma sample_in_range (d : decoder.t) (v : bool) (now : Z) :
  decoder.m_state d < 64 ->
  exists d' res, decoder.sample d v now = decoder.Done d' res.
Proof.
  intros Hst. destruct (decoder.sample d v now) as [d' res|n] eqn:E.
  - do 2 eexists; reflexivity.
  - apply sample_out_of_range in E. lia.
Qed.

(** C8.  No call returns [invalid_result]: a call that returns, returns
    [no_result], [has_time_and_date] or [has_complete], and every call made
    with a bit index below the register width returns. *)
Theorem sample_never_invalid (d : decoder.t) (v : bool) (now : Z) :
  (forall d', decoder.sample d v now
              <> decoder.Done d' decoder.invalid_result)
  /\ (forall d' res, decoder.sample d v now = decoder.Done d' res ->
                     res = decoder.no_result
                     \/ res = decoder.has_time_and_date
                     \/ res = decoder.has_complete)
  /\ (decoder.m_state d < 64 ->
      exists d' res, decoder.sample d v now = decoder.Done d' res).
Proof.
  repeat split.
  - intros d' Hinv. apply sample_result in Hinv.
    destruct Hinv as [H|[H|H]]; discriminate.
  - apply sample_result.
  - apply sample_in_range.
Qed.

Lemma one_bit_in_range (m : Z) :
  0 <= m < 64 -> to_uint64 (Z.shiftl 1 m) = 2 ^ m.
Proof.
  intros Hm. rewrite Z.shiftl_1_l. unfold to_uint64.
  change 18446744073709551616 with (2 ^ 64).
  apply Z.mod_small. split; [apply Z.pow_nonneg; lia|].
  apply Z.pow_lt_mono_r; lia.
Qed.

(** C7 as the code has it.  On a rising edge seen with a bit index below 64:
    an interval of at most [LOW_ZERO_TIME - SLACK] changes neither the
    register nor the bit index; a longer interval of at most
    [LOW_ONE_TIME - SLACK] leaves the register as it is, so that bit
    [bit_index] is 0 afterwards whenever it was 0 before, and increments the
    bit index; a still longer interval sets bit [bit_index] to 1, leaves the
    other bits, and increments the bit index. *)
Theorem rising_edge_bit_in_range (d : decoder.t) (v : bool) (now : Z) :
  rising_edge d v now ->
  0 <= decoder.m_state d < 64 ->
  (decoder.interval d v now <= decoder.LOW_ZERO_TIME - decoder.SLACK ->
   exists d',
     decoder.sample d v now = decoder.Done d' decoder.no_result
     /\ decoder.m_data_new d' = decoder.m_data_new d
     /\ decoder.m_state d' = decoder.m_state d)
  /\ (decoder.LOW_ZERO_TIME - decoder.SLACK < decoder.interval d v now
        <= decoder.LOW_ONE_TIME - decoder.SLACK ->
      exists d',
        decoder.sample d v now = decoder.Done d' decoder.no_result
        /\ decoder.m_data_new d' = decoder.m_data_new d
        /\ (Z.testbit (decoder.m_data_new d) (decoder.m_state d) = false ->
            Z.testbit (decoder.m_data_new d') (decoder.m_state d) = false)
        /\ decoder.m_state d' = decoder.m_state d + 1)
  /\ (decoder.LOW_ONE_TIME - decoder.SLACK < decoder.interval d v now ->
      exists d',
        decoder.sample d v now = decoder.Done d' decoder.no_result
        /\ Z.testbit (decoder.m_data_new d') (decoder.m_state d) = true
        /\ (forall i, i <> decoder.m_state d ->
                      Z.testbit (decoder.m_data_new d') i
                      = Z.testbit (decoder.m_data_new d) i)
        /\ decoder.m_state d' = decoder.m_state d + 1).
Proof.
  intros Hr Hst. rewrite (sample_rising d v now Hr). unfold decoder.bit_pulse.
  cbn [decoder.set_debouncer decoder.m_state decoder.m_data_new].
  change (decoder.LOW_ZERO_TIME - decoder.SLACK) with 50.
  change (decoder.LOW_ONE_TIME - decoder.SLACK) with 150.
  assert (Hinc : to_uint8 (decoder.m_state d + 1) = decoder.m_state d + 1)
    by (apply Z.mod_small; lia).
  split; [|split]; intros Hdt.
  - replace (decoder.interval d v now >? 50) with false by lia.
    eexists. repeat split.
  - replace (decoder.interval d v now >? 50) with true by lia.
    replace (decoder.interval d v now >? 150) with false by lia.
    eexists. split; [reflexivity|]. cbn. repeat split; auto.
  - replace (decoder.interval d v now >? 50) with true by lia.
    replace (decoder.interval d v now >? 150) with true by lia.
    replace (decoder.m_state d <? 64) with true by lia.
    rewrite one_bit_in_range by lia.
    eexists. split; [reflexivity|]. cbn. split; [|split; [|exact Hinc]].
    + rewrite Z.lor_spec, Z.pow2_bits_true by lia. apply orb_true_r.
    + intros i Hi. rewrite Z.lor_spec, Z.pow2_bits_false by lia.
      apply orb_false_r.
Qed.

(** The register of a decoder stays fresh as long as calls are made with a
    bit index below 64, and a fresh register has bit [bit_index] clear. *)
Lemma fresh_bit_clear (d : decoder.t) :
  fresh d -> Z.testbit (decoder.m_data_new d) (decoder.m_state d) = false.
Proof.
  intros (Hst & Hreg). rewrite <- (Z.mod_small _ _ Hreg).
  apply Z.mod_pow2_bits_high. lia.
Qed.

Lemma fresh_init : fresh decoder.init.
Proof. unfold fresh. cbn. lia. Qed.

Lemma lor_bit_bound (x m : Z) :
  0 <= m -> 0 <= x < 2 ^ m -> 0 <= Z.lor x (2 ^ m) < 2 ^ (m + 1).
Proof.
  intros Hm Hx.
  assert (Hp : 0 < 2 ^ m) by (apply Z.pow_pos_nonneg; lia).
  assert (Hnn : 0 <= Z.lor x (2 ^ m)) by (apply Z.lor_nonneg; lia).
  split; [exact Hnn|].
  destruct (Z.eq_dec x 0) as [->|Hx0].
  - rewrite Z.lor_0_l. apply Z.pow_lt_mono_r; lia.
  - assert (Hpos : 0 < Z.lor x (2 ^ m)).
    { destruct (Z.eq_dec (Z.lor x (2 ^ m)) 0) as [E|E]; [|lia].
      apply Z.lor_eq_0_iff in E. lia. }
    apply Z.log2_lt_pow2; [exact Hpos|].
    rewrite Z.log2_lor by lia. rewrite Z.log2_pow2 by lia.
    assert (Z.log2 x < m) by (apply Z.log2_lt_pow2; lia). lia.
Qed.

Lemma Done_inj (d1 d2 : decoder.t) (r1 r2 : decoder.state) :
  decoder.Done d1 r1 = decoder.Done d2 r2 -> d1 = d2 /\ r1 = r2.
Proof. intros H. injection H as -> ->. split; reflexivity. Qed.

Lemma sync_event_fresh (d : decoder.t) (ev : debounce.result) :
  decoder.m_state (fst (decoder.sync_event d ev)) = 0
  /\ decoder.m_data_new (fst (decoder.sync_event d ev)) = 0.
Proof.
  unfold decoder.sync_event.
  destruct (decoder.m_state d <? 59); split; reflexivity.
Qed.

Lemma bit_pulse_fresh (d d' : decoder.t) (dt : Z) :
  fresh d -> decoder.m_state d < 64 ->
  decoder.bit_pulse d dt = Some d' -> fresh d'.
Proof.
  intros (Hst & Hreg) H64. unfold decoder.bit_pulse.
  replace (decoder.m_state d <? 64) with true by lia.
  assert (Hinc : to_uint8 (decoder.m_state d + 1) = decoder.m_state d + 1)
    by (apply Z.mod_small; lia).
  assert (Hgrow : 2 ^ decoder.m_state d < 2 ^ (decoder.m_state d + 1))
    by (apply Z.pow_lt_mono_r; lia).
  destruct (dt >? decoder.LOW_ONE_TIME - decoder.SLACK);
    intros H; injection H as <-; unfold fresh;
    cbn [decoder.m_state decoder.m_data_new]; rewrite Hinc.
  - rewrite one_bit_in_range by lia.
    split; [lia|]. apply lor_bit_bound; assumption.
  - lia.
Qed.

Lemma set_last_t_fresh (d : decoder.t) (last : Z) :
  fresh d -> fresh (decoder.set_last_t d last).
Proof. intros H. exact H. Qed.

Lemma sample_fresh (d : decoder.t) (v : bool) (now : Z)
                   (d' : decoder.t) (res : decoder.state) :
  fresh d -> decoder.m_state d < 64 ->
  decoder.sample d v now = decoder.Done d' res -> fresh d'.
Proof.
  intros Hf H64.
  set (d0 := decoder.set_debouncer d
               (debounce.sample (decoder.m_debouncer d) v now)).
  assert (Hf0 : fresh d0) by exact Hf.
  assert (H640 : decoder.m_state d0 < 64) by exact H64.
  destruct (rising_edge_dec d v now) as [Hr|Hnr].
  - rewrite (sample_rising d v now Hr). fold d0.
    destruct (decoder.interval d v now >? _).
    + destruct (decoder.bit_pulse d0 _) as [d2|] eqn:E; [|discriminate].
      intros H. apply Done_inj in H as [<- _].
      apply set_last_t_fresh. exact (bit_pulse_fresh _ _ _ Hf0 H640 E).
    + intros H. apply Done_inj in H as [<- _]. exact Hf0.
  - rewrite sample_unfold. cbv zeta. fold d0.
    destruct (debounce.edge (decoder.event d v now)) eqn:Hedge.
    + destruct (debounce.value (decoder.event d v now)) eqn:Hval.
      * exfalso. apply Hnr. split; assumption.
      * cbn [negb andb].
        destruct (decoder.interval d v now >? _).
        -- pose proof (sync_event_fresh d0 (decoder.event d v now)) as [H1 H2].
           destruct (decoder.sync_event d0 _) as [d1 res1].
           cbn [fst] in H1, H2.
           intros H. apply Done_inj in H as [<- _].
           unfold fresh. cbn [decoder.set_last_t decoder.m_state
                              decoder.m_data_new].
           rewrite H1, H2. change (2 ^ 0) with 1. lia.
        -- intros H. apply Done_inj in H as [<- _]. exact Hf0.
    + intros H. apply Done_inj in H as [<- _]. exact Hf0.
Qed.

Lemma run_cons_decoder (d : decoder.t) (c : bool * Z)
                       (rest : list (bool * Z)) :
  decoder.run d (c :: rest) =
  match decoder.sample d (fst c) (snd c) with
  | decoder.Done d' _ => decoder.run d' rest
  | decoder.ShiftOutOfRange _ => None
  end.
Proof. reflexivity. Qed.

(** A run during which the bit index stays below 64 never shifts out of
    range. *)
Lemma run_in_range (trace : list (bool * Z)) :
  forall d,
    (forall k d', decoder.run d (firstn k trace) = Some d' ->
                  decoder.m_state d' < 64) ->
    exists d', decoder.run d trace = Some d'.
Proof.
  induction trace as [|c rest IH]; intros d Hbound.
  - eexists. reflexivity.
  - rewrite run_cons_decoder.
    destruct (sample_in_range d (fst c) (snd c)) as (d1 & res & E).
    { apply (Hbound O). reflexivity. }
    rewrite E. apply IH. intros k d' Hk.
    apply (Hbound (S k)). cbn [firstn]. rewrite run_cons_decoder, E.
    exact Hk.
Qed.

(** C10.  The bit index is never checked against an upper bound.  Every
    accepted pulse that completes increments it by one as an 8-bit counter,
    whatever its value.  The single-bit write shifts out of range exactly
    when a one pulse arrives with a bit index of 64 or more, the shift amount
    being the index.  A run in which the bit index is below 64 at every call
    never takes that branch.  Without a minute boundary the branch is
    reached: after 64 accepted pulses the index is 64 and a one pulse shifts
    by the register width, and with zero pulses only the index grows past 63
    and wraps to 0 after 256 pulses without the register being reset. *)
Theorem bit_index_is_unguarded :
  (forall d v now d' res,
      rising_edge d v now ->
      decoder.LOW_ZERO_TIME - decoder.SLACK < decoder.interval d v now ->
      decoder.sample d v now = decoder.Done d' res ->
      decoder.m_state d' = to_uint8 (decoder.m_state d + 1))
  /\ (forall d v now n,
         decoder.sample d v now = decoder.ShiftOutOfRange n
         <-> rising_edge d v now
             /\ decoder.LOW_ONE_TIME - decoder.SLACK < decoder.interval d v now
             /\ 64 <= decoder.m_state d
             /\ n = decoder.m_state d)
  /\ (forall trace d,
         (forall k d', decoder.run d (firstn k trace) = Some d' ->
                       decoder.m_state d' < 64) ->
         exists d', decoder.run d trace = Some d')
  /\ (exists d,
         decoder.run decoder.init (zero_pulses 64 ++ [(false, 65000)]) = Some d
         /\ decoder.m_state d = 64
         /\ decoder.sample d true 65200 = decoder.ShiftOutOfRange 64
         /\ decoder.run decoder.init
              (zero_pulses 64 ++ [(false, 65000); (true, 65200)]) = None)
  /\ (exists d,
         decoder.run decoder.init (zero_pulses 100) = Some d
         /\ decoder.m_state d = 100)
  /\ (exists d,
         decoder.run decoder.init (zero_pulses 256) = Some d
         /\ decoder.m_state d = 0 /\ decoder.m_data_new d = 1).
Proof.
  split; [|split; [|split; [|split; [|split]]]].
  - intros d v now d' res Hr Hdt. rewrite (sample_rising d v now Hr).
    replace (decoder.interval d v now
             >? decoder.LOW_ZERO_TIME - decoder.SLACK) with true by lia.
    unfold decoder.bit_pulse.
    destruct (if decoder.interval d v now >? _ then _ else _);
      [|discriminate].
    intros [= <- _]. reflexivity.
  - apply sample_out_of_range.
  - intros trace d. apply run_in_range.
  - eexists. split; [vm_compute; reflexivity|].
    repeat split; vm_compute; reflexivity.
  - eexists. split; [vm_compute; reflexivity|]. vm_compute; reflexivity.
  - eexists. split; [vm_compute; reflexivity|].
    split; vm_compute; reflexivity.
Qed.

(** ** The statements at concrete signals *)

Ltac by_computation := vm_compute; first [reflexivity | discriminate].

(** The raw input rises at tick 201 after 200 ticks of low input; the call
    at tick 235 reports the edge, with timestamp 201. *)
Lemma edge_timestamp_is_raw_flip_witness :
  debounce.edge
    (debounce.m_result
       (debounce.run (debounce.run (debounce.init 64) (debounce.hold 200 false 1))
                     ((true, 201) :: debounce.hold 34 true 202))) = true
  /\ debounce.m_last_t
       (debounce.run (debounce.run (debounce.init 64) (debounce.hold 200 false 1))
                     ((true, 201) :: debounce.hold 34 true 202)) = 235
  /\ debounce.t
       (debounce.m_result
          (debounce.run (debounce.run (debounce.init 64)
                                      (debounce.hold 200 false 1))
                        ((true, 201) :: debounce.hold 34 true 202))) = 201.
Proof.
  split; [by_computation|]. split; [by_computation|].
  apply (edge_timestamp_is_raw_flip
           (debounce.run (debounce.init 64) (debounce.hold 200 false 1))
           true 201 (debounce.hold 34 true 202)).
  - by_computation.
  - repeat constructor.
  - by_computation.
Defined.

(** C3 as stated fails: after 200 ticks of low input the raw input rises at
    tick 201; the filter with hysteresis 64 reports the edge 34 ticks later,
    the filter with the larger hysteresis 128 already 18 ticks later. *)
Lemma larger_hysteresis_flips_sooner :
  64 < 128
  /\ debounce.value
       (debounce.m_result
          (debounce.run (debounce.init 64) (debounce.hold 200 false 1))) = false
  /\ debounce.value
       (debounce.m_result
          (debounce.run (debounce.init 128) (debounce.hold 200 false 1))) = false
  /\ debounce.flip_delay 200 64 (debounce.hold 200 false 1) true 201
     = Some 34%nat
  /\ debounce.flip_delay 200 128 (debounce.hold 200 false 1) true 201
     = Some 18%nat
  /\ ~ (18 >= 34)%nat.
Proof.
  split; [lia|]. split; [by_computation|]. split; [by_computation|].
  split; [by_computation|]. split; [by_computation|]. lia.
Qed.

Lemma larger_hysteresis_flips_no_later_witness :
  exists k2,
    debounce.flip_delay 200 128 (debounce.hold 200 false 1) true 201 = Some k2
    /\ (k2 <= 34)%nat.
Proof.
  apply (larger_hysteresis_flips_no_later
           200 (debounce.hold 200 false 1) true 201 64 128 34).
  - lia.
  - lia.
  - by_computation.
  - by_computation.
  - by_computation.
Defined.

Lemma valid_telegram_invariants_witness :
  data.valid false sample_telegram = true
  /\ data.get_minute sample_telegram <= 59
  /\ data.get_hour sample_telegram <= 23.
Proof.
  split; [by_computation|].
  destruct (valid_telegram_invariants sample_telegram) as
    (_ & _ & _ & _ & _ & _ & _ & Hmin & Hhour & _).
  - unfold sample_telegram. lia.
  - by_computation.
  - split; assumption.
Defined.

(** The complete minute: 59 pulses from a cold start, then the minute mark. *)
Lemma complete_telegram_is_committed_witness :
  decoder.run decoder.init sample_minute = Some (decoder_after sample_minute)
  /\ exists d',
       decoder.sample (decoder_after sample_minute) false 63000
       = decoder.Done d' decoder.has_complete
       /\ decoder.get_data d' = sample_telegram
       /\ decoder.get_phase d' = 63000.
Proof.
  split; [by_computation|].
  destruct (complete_telegram_is_committed
              (decoder_after sample_minute) false 63000)
    as (d' & Hres & Hdata & Hphase).
  - by_computation.
  - split; [by_computation|]. split; by_computation.
  - by_computation.
  - exists d'. split; [exact Hres|]. split.
    + rewrite Hdata. by_computation.
    + rewrite Hphase. by_computation.
Defined.

(** The partial minute: 39 pulses captured, realigned by 20 bits. *)
Lemma partial_telegram_is_realigned_witness :
  decoder.m_state (decoder_after partial_minute) = 39
  /\ realigned (decoder_after partial_minute)
     = Z.shiftl (Z.shiftr sample_telegram 20) 20
  /\ exists d' res,
       decoder.sample (decoder_after partial_minute) false 41000
       = decoder.Done d' res
       /\ res = decoder.has_time_and_date.
Proof.
  split; [by_computation|]. split; [by_computation|].
  destruct (partial_telegram_is_realigned
              (decoder_after partial_minute) false 41000)
    as (d' & res & Hres & Hval & _).
  - vm_compute. reflexivity.
  - split; [by_computation|]. split; by_computation.
  - exists d', res. split; [exact Hres|]. rewrite Hval. by_computation.
Defined.

(** A boundary right after a cold start: the single captured bit does not
    validate. *)
Lemma failed_validation_keeps_snapshot_witness :
  exists d',
    decoder.sample (decoder_after [(true, 1000)]) false 3000
    = decoder.Done d' decoder.no_result
    /\ decoder.get_data d' = decoder.get_data (decoder_after [(true, 1000)])
    /\ decoder.get_phase d' = decoder.get_phase (decoder_after [(true, 1000)]).
Proof.
  apply (failed_validation_keeps_snapshot
           (decoder_after [(true, 1000)]) false 3000).
  - split; [by_computation|]. split; by_computation.
  - by_computation.
Defined.

(** The end of a one pulse at bit index 20 of the partial minute. *)
Lemma rising_edge_bit_in_range_witness :
  decoder.m_state (decoder_after (firstn 3 partial_minute)) = 1
  /\ exists d',
       decoder.sample (decoder_after (firstn 3 partial_minute)) true 2100
       = decoder.Done d' decoder.no_result
       /\ decoder.m_data_new d' = 1
       /\ decoder.m_state d' = 2.
Proof.
  split; [by_computation|].
  assert (Hr : rising_edge (decoder_after (firstn 3 partial_minute)) true 2100)
    by (split; by_computation).
  assert (Hst : 0 <= decoder.m_state (decoder_after (firstn 3 partial_minute))
                < 64) by (split; by_computation).
  assert (Hdt : decoder.LOW_ZERO_TIME - decoder.SLACK
                < decoder.interval (decoder_after (firstn 3 partial_minute))
                                   true 2100
                <= decoder.LOW_ONE_TIME - decoder.SLACK)
    by (split; [by_computation|vm_compute; discriminate]).
  destruct (proj1 (proj2 (rising_edge_bit_in_range _ true 2100 Hr Hst)) Hdt)
    as (d' & Hres & Hreg & _ & Hidx).
  exists d'. split; [exact Hres|]. split.
  - rewrite Hreg. by_computation.
  - rewrite Hidx. by_computation.
Defined.

(** C7 as stated fails.  After 64 pulses without a minute mark the bit index
    is 64, and the rising edge that ends a one pulse cannot set bit 64 of the
    64-bit register: the shift is out of range, no bit is written and the
    index is not incremented.  After 256 pulses without a minute mark, the
    first of them a one, the index has wrapped to 0 and bit 0 is set; the
    rising edge that ends a zero pulse leaves it set, so bit [bit_index] is
    1 and not 0 after the call. *)
Lemma rising_edge_bit_counterexample :
  (exists d,
      decoder.run decoder.init (zero_pulses 64 ++ [(false, 65000)]) = Some d
      /\ rising_edge d true 65200
      /\ decoder.LOW_ONE_TIME - decoder.SLACK < decoder.interval d true 65200
      /\ decoder.m_state d = 64
      /\ decoder.sample d true 65200 = decoder.ShiftOutOfRange 64)
  /\ (exists d d',
         decoder.run decoder.init (zero_pulses 256 ++ [(false, 60392)])
         = Some d
         /\ rising_edge d true 60492
         /\ decoder.LOW_ZERO_TIME - decoder.SLACK
            < decoder.interval d true 60492
            <= decoder.LOW_ONE_TIME - decoder.SLACK
         /\ decoder.m_state d = 0
         /\ decoder.sample d true 60492 = decoder.Done d' decoder.no_result
         /\ Z.testbit (decoder.m_data_new d') (decoder.m_state d) = true).
Proof.
  split.
  - eexists. split; [by_computation|].
    split; [split; by_computation|].
    split; [by_computation|]. split; by_computation.
  - do 2 eexists. split; [by_computation|].
    split; [split; by_computation|].
    split; [split; [by_computation|vm_compute; discriminate]|].
    split; [by_computation|]. split; by_computation.
Qed.

(** * Further properties of the filter *)

(** Leaving the low-pass loop early is an optimisation only: a call that
    spans [n] ticks leaves the accumulator at the [n]-fold filter update. *)
Theorem early_exit_is_transparent (n : nat) (v : bool) (lp : Z) :
  debounce.low_pass_loop n v lp = Nat.iter n (filter v) lp.
Proof. apply low_pass_loop_iter. Qed.

(** How a run with constant input is cut into calls does not matter: the
    accumulator is the filter iterated over the elapsed ticks. *)
Theorem constant_run_depends_on_elapsed
    (s : debounce.state) (v : bool) (trace : list (bool * Z)) :
  Forall (fun c => fst c = v) trace ->
  debounce.m_low_pass (debounce.run s trace)
  = Nat.iter (Z.to_nat (debounce.elapsed (debounce.m_last_t s) trace))
             (filter v) (debounce.m_low_pass s).
Proof. apply run_constant_low_pass. Qed.

Lemma constant_run_depends_on_elapsed_witness :
  debounce.m_low_pass
    (debounce.run (debounce.init 64) [(true, 3); (true, 4); (true, 10)])
  = debounce.m_low_pass (debounce.run (debounce.init 64) [(true, 10)]).
Proof.
  rewrite (constant_run_depends_on_elapsed
             (debounce.init 64) true [(true, 3); (true, 4); (true, 10)])
    by (repeat constructor).
  rewrite (constant_run_depends_on_elapsed (debounce.init 64) true [(true, 10)])
    by (repeat constructor).
  reflexivity.
Defined.

Lemma run_hysteresis_value (h : Z) (trace : list (bool * Z)) :
  0 <= h <= 255 ->
  debounce.m_hysteresis (debounce.run (debounce.init h) trace) = h * 97 / 256
  /\ 0 <= h * 97 / 256 < 97.
Proof.
  intros Hh. rewrite run_hysteresis, init_hysteresis by lia.
  split; [reflexivity|]. split.
  - apply Z.div_le_lower_bound; lia.
  - apply Z.div_lt_upper_bound; lia.
Qed.

(** In every state reached from a filter constructed with a hysteresis byte
    the accumulator lies between [FLT_MIN] and [FLT_MAX], and the stored
    hysteresis is the byte scaled to the convergence range, below its
    width. *)
Theorem filter_state_invariant (h : Z) (trace : list (bool * Z)) :
  0 <= h <= 255 ->
  FLT_MIN <= debounce.m_low_pass (debounce.run (debounce.init h) trace)
          <= FLT_MAX
  /\ debounce.m_hysteresis (debounce.run (debounce.init h) trace)
     = h * (FLT_MAX - FLT_MIN) / 256
  /\ 0 <= debounce.m_hysteresis (debounce.run (debounce.init h) trace)
       < FLT_MAX - FLT_MIN.
Proof.
  intros Hh. rewrite FLT_MAX_value, FLT_MIN_value, Z.sub_0_r.
  destruct (run_hysteresis_value h trace Hh) as [-> Hb].
  split; [|split; [reflexivity|exact Hb]].
  apply run_low_pass_range. rewrite init_low_pass. lia.
Qed.

Lemma filter_state_invariant_witness :
  debounce.m_hysteresis
    (debounce.run (debounce.init 64) (debounce.hold 10 true 1))
  = 64 * (FLT_MAX - FLT_MIN) / 256.
Proof.
  apply (filter_state_invariant 64 (debounce.hold 10 true 1)). lia.
Defined.

(** The accumulator moves towards the input: a call with input true never
    lowers it, a call with input false never raises it. *)
Theorem low_pass_follows_input
    (h : Z) (pre : list (bool * Z)) (v : bool) (now : Z) :
  if v
  then debounce.m_low_pass (debounce.run (debounce.init h) pre)
       <= debounce.m_low_pass
            (debounce.sample (debounce.run (debounce.init h) pre) v now)
  else debounce.m_low_pass
         (debounce.sample (debounce.run (debounce.init h) pre) v now)
       <= debounce.m_low_pass (debounce.run (debounce.init h) pre).
Proof.
  assert (Hs : 0 <= debounce.m_low_pass (debounce.run (debounce.init h) pre)
               <= 97)
    by (apply run_low_pass_range; rewrite init_low_pass; lia).
  cbn [debounce.sample debounce.m_low_pass]. rewrite low_pass_loop_iter.
  set (n := Z.to_nat _).
  destruct v.
  - pose proof (iter_filter_true n _ Hs). lia.
  - pose proof (iter_filter_false n _ Hs). lia.
Qed.

(** The edge flag of a call is set exactly when the output level of the
    call differs from the previous one; an edge carries the time of the last
    raw change, and without an edge the stored timestamp stays. *)
Theorem edge_iff_output_changed (s : debounce.state) (v : bool) (now : Z) :
  debounce.edge (debounce.m_result (debounce.sample s v now))
  = xorb (debounce.value (debounce.m_result (debounce.sample s v now)))
         (debounce.value (debounce.m_result s))
  /\ (debounce.edge (debounce.m_result (debounce.sample s v now)) = true ->
      debounce.t (debounce.m_result (debounce.sample s v now))
      = debounce.m_last_state_change (debounce.sample s v now))
  /\ (debounce.edge (debounce.m_result (debounce.sample s v now)) = false ->
      debounce.t (debounce.m_result (debounce.sample s v now))
      = debounce.t (debounce.m_result s)).
Proof.
  cbn [debounce.sample debounce.m_result debounce.m_last_state_change].
  unfold debounce.trigger.
  destruct (debounce.value (debounce.m_result s)) eqn:Hv;
    cbn [negb]; rewrite ?andb_true_r, ?andb_false_r.
  - destruct (_ <? _); cbn; rewrite ?Hv; repeat split; congruence.
  - destruct (_ >? _); cbn; rewrite ?Hv; repeat split; congruence.
Qed.

Lemma run_dead_filter (trace : list (bool * Z)) (s : debounce.state) :
  0 <= debounce.m_low_pass s <= 97 ->
  debounce.m_hysteresis s = 0 ->
  debounce.m_result s = debounce.mk_result 0 false false ->
  debounce.m_result (debounce.run s trace) = debounce.mk_result 0 false false.
Proof.
  revert s. induction trace as [|c rest IH]; intros s Hlp Hh Hr; [exact Hr|].
  rewrite run_cons. apply IH.
  - apply sample_low_pass_range. exact Hlp.
  - exact Hh.
  - pose proof (sample_low_pass_range s (fst c) (snd c) Hlp) as Hlp'.
    cbn [debounce.sample debounce.m_result debounce.m_low_pass] in *.
    rewrite Hh, Hr. unfold debounce.trigger. cbn [debounce.value negb].
    rewrite FLT_MAX_value, Z.sub_0_r, andb_false_r.
    replace (_ >? 97) with false by lia. reflexivity.
Qed.

(** A filter constructed with a hysteresis byte below 3 has a stored
    hysteresis of 0: its thresholds lie outside the range of the accumulator
    and its output never leaves the initial low level, whatever the input. *)
Theorem small_hysteresis_never_flips (h : Z) (trace : list (bool * Z)) :
  0 <= h <= 2 ->
  debounce.m_result (debounce.run (debounce.init h) trace)
  = debounce.mk_result 0 false false.
Proof.
  intros Hh. apply run_dead_filter.
  - rewrite init_low_pass. lia.
  - rewrite init_hysteresis by lia.
    apply Z.div_small. lia.
  - reflexivity.
Qed.

Lemma small_hysteresis_never_flips_witness :
  debounce.m_result
    (debounce.run (debounce.init 2) (debounce.hold 300 true 1))
  = debounce.mk_result 0 false false.
Proof.
  apply (small_hysteresis_never_flips 2 (debounce.hold 300 true 1)). lia.
Defined.

(** * Further properties of the telegram record *)

(** [decode_bcd] adds ten times the high nibble to the low nibble, for
    every byte and without wrapping. *)
Theorem decode_bcd_value (x : Z) :
  0 <= x < 256 ->
  data.decode_bcd x = 10 * (x / 16) + x mod 16
  /\ 0 <= data.decode_bcd x <= 165.
Proof.
  intros Hx. destruct (bcd_digits x Hx) as (_ & _ & ->).
  split; [reflexivity|].
  pose proof (Z.mod_pos_bound x 16).
  assert (0 <= x / 16) by (apply Z.div_pos; lia).
  assert (x / 16 < 16) by (apply Z.div_lt_upper_bound; lia).
  lia.
Qed.

Lemma decode_bcd_value_witness :
  data.decode_bcd 89 = 10 * (89 / 16) + 89 mod 16.
Proof. apply (decode_bcd_value 89). lia. Defined.

(** [decode_bcd] inverts the BCD encoding of every number below 100. *)
Theorem decode_bcd_inverts_bcd (n : Z) :
  0 <= n <= 99 -> data.decode_bcd (16 * (n / 10) + n mod 10) = n.
Proof.
  intros Hn.
  pose proof (forall_byte
    (fun n => (99 <? n) || (data.decode_bcd (16 * (n / 10) + n mod 10) =? n)))
    as Hall.
  specialize (Hall ltac:(vm_compute; reflexivity) n ltac:(lia)).
  cbv beta in Hall. replace (99 <? n) with false in Hall by lia.
  apply Z.eqb_eq. exact Hall.
Qed.

Lemma decode_bcd_inverts_bcd_witness :
  data.decode_bcd (16 * (59 / 10) + 59 mod 10) = 59.
Proof. apply (decode_bcd_inverts_bcd 59). lia. Defined.

(** [valid_bcd] with decimal maxima accepts exactly the bytes that hold two
    decimal digits and decode to at most the maximum. *)
Theorem valid_bcd_iff (max_hi max_lo x : Z) :
  0 <= x < 256 -> 0 <= max_hi <= 9 -> 0 <= max_lo <= 9 ->
  valid_bcd max_hi max_lo x = true
  <-> x / 16 <= 9 /\ x mod 16 <= 9
      /\ data.decode_bcd x <= 10 * max_hi + max_lo.
Proof.
  intros Hx Hhi Hlo. unfold valid_bcd.
  destruct (bcd_digits x Hx) as (-> & -> & ->).
  pose proof (Z.mod_pos_bound x 16).
  assert (0 <= x / 16) by (apply Z.div_pos; lia).
  destruct (x / 16 >? 9) eqn:E1; cbn [orb]; [split; [discriminate|lia]|].
  destruct (x mod 16 >? 9) eqn:E2; [split; [discriminate|lia]|].
  destruct (x / 16 >? max_hi) eqn:E3; [split; [discriminate|lia]|].
  destruct (x / 16 =? max_hi) eqn:E4; cbn [andb].
  - destruct (x mod 16 >? max_lo) eqn:E5; split; try discriminate; lia.
  - split; [lia|reflexivity].
Qed.

Lemma valid_bcd_iff_witness :
  valid_bcd 2 3 35 = true
  <-> 35 / 16 <= 9 /\ 35 mod 16 <= 9 /\ data.decode_bcd 35 <= 10 * 2 + 3.
Proof. apply (valid_bcd_iff 2 3 35); lia. Defined.

Lemma field_land (off w b m : Z) :
  data.field off w (Z.land b m)
  = Z.land (data.field off w b) (data.field off w m).
Proof.
  unfold data.field. rewrite Z.shiftr_land.
  apply Z.bits_inj'. intros n Hn. rewrite !Z.land_spec.
  destruct (Z.testbit (Z.shiftr b off) n), (Z.testbit (Z.shiftr m off) n),
    (Z.testbit (Z.ones w) n); reflexivity.
Qed.

Lemma field_checked (off w b : Z) :
  data.field off w CHECKED_BITS = Z.ones w ->
  data.field off w (Z.land b CHECKED_BITS) = data.field off w b.
Proof.
  intros Hc. rewrite field_land, Hc. unfold data.field.
  rewrite <- Z.land_assoc, Z.land_diag. reflexivity.
Qed.

Lemma valid_checked_bits (m : bool) (b : Z) :
  data.valid m (Z.land b CHECKED_BITS) = data.valid m b.
Proof.
  unfold data.valid, data.minute_start, data.time_start, data.cest, data.cet,
    data.parity_minute, data.minute, data.parity_hour, data.hour,
    data.parity_date, data.day, data.day_of_week, data.month, data.year.
  rewrite !field_checked by reflexivity.
  rewrite <- (Z.land_assoc b CHECKED_BITS data.DATE_MASK).
  change (Z.land CHECKED_BITS data.DATE_MASK) with data.DATE_MASK.
  reflexivity.
Qed.

(** The validation reads bit 0, bits 17 and 18 and bits 20 to 58 only: two
    registers that agree on these bits get the same verdict, in either mode.
    The auxiliary data, the call bit, the announcement bits 16 and 19 and
    all bits from bit 59 on, the leap-second bit among them, are never
    checked. *)
Theorem valid_reads_checked_bits_only (m : bool) (b b' : Z) :
  Z.land b CHECKED_BITS = Z.land b' CHECKED_BITS ->
  data.valid m b = data.valid m b'.
Proof.
  intros Heq. rewrite <- (valid_checked_bits m b), Heq.
  apply valid_checked_bits.
Qed.

Lemma valid_reads_checked_bits_only_witness :
  data.valid false (Z.lor sample_telegram (Z.shiftl 1 59))
  = data.valid false sample_telegram.
Proof.
  apply (valid_reads_checked_bits_only
           false (Z.lor sample_telegram (Z.shiftl 1 59)) sample_telegram).
  reflexivity.
Defined.

Lemma valid_full_date_only (b : Z) :
  data.valid false b = true -> data.valid true b = true.
Proof.
  unfold data.valid. cbn [orb]. intros Hvalid.
  repeat (apply andb_prop in Hvalid as [Hvalid ?]).
  repeat (apply andb_true_intro; split); first [assumption|reflexivity].
Qed.

(** What either mode of the validation guarantees for the decoded time and
    date. *)
Lemma valid_ranges (m : bool) (b : Z) :
  data.valid m b = true ->
  data.time_start b = 1
  /\ 0 <= data.get_minute b <= 59
  /\ 0 <= data.get_hour b <= 23
  /\ 1 <= data.get_day b <= 31
  /\ 1 <= data.get_day_of_week b <= 7
  /\ 1 <= data.get_month b <= 12
  /\ 2000 <= data.get_year b <= 2099.
Proof.
  intros Hvalid. unfold data.valid in Hvalid.
  repeat (apply andb_prop in Hvalid as [Hvalid ?]).
  repeat match goal with
         | H : (_ =? _) = true |- _ => apply Z.eqb_eq in H
         | H : (_ >? _) = true |- _ => apply Z.gtb_lt in H
         end.
  pose proof (field_byte 21 7 b ltac:(lia)) as Rmin.
  pose proof (field_byte 29 6 b ltac:(lia)) as Rhour.
  pose proof (field_byte 36 6 b ltac:(lia)) as Rday.
  pose proof (field_byte 45 5 b ltac:(lia)) as Rmonth.
  pose proof (field_byte 50 8 b ltac:(lia)) as Ryear.
  pose proof (field_range 42 3 b) as Rdow.
  change (data.field 21 (Z.of_nat 7)) with data.minute in *.
  change (data.field 29 (Z.of_nat 6)) with data.hour in *.
  change (data.field 36 (Z.of_nat 6)) with data.day in *.
  change (data.field 45 (Z.of_nat 5)) with data.month in *.
  change (data.field 50 (Z.of_nat 8)) with data.year in *.
  change (data.field 42 (Z.of_nat 3)) with data.day_of_week in *.
  change (2 ^ Z.of_nat 3) with 8 in *.
  repeat match goal with
         | H : valid_bcd _ _ _ = true |- _ =>
             apply valid_bcd_sound in H; [|assumption]
         end.
  unfold data.get_minute, data.get_hour, data.get_day, data.get_month,
    data.get_day_of_week, data.get_year, to_uint16.
  destruct (bcd_digits _ Rmin) as (_ & _ & ->).
  destruct (bcd_digits _ Rhour) as (_ & _ & ->).
  destruct (bcd_digits _ Rday) as (_ & _ & ->).
  destruct (bcd_digits _ Rmonth) as (_ & _ & ->).
  destruct (bcd_digits _ Ryear) as (_ & _ & ->).
  pose proof (Z.mod_pos_bound (data.minute b) 16).
  pose proof (Z.mod_pos_bound (data.hour b) 16).
  pose proof (Z.mod_pos_bound (data.day b) 16).
  pose proof (Z.mod_pos_bound (data.month b) 16).
  pose proof (Z.mod_pos_bound (data.year b) 16).
  pose proof (Z.div_pos (data.minute b) 16).
  pose proof (Z.div_pos (data.hour b) 16).
  pose proof (Z.div_pos (data.day b) 16).
  pose proof (Z.div_pos (data.month b) 16).
  pose proof (Z.div_pos (data.year b) 16).
  pose proof (Z.div_mod (data.day b) 16).
  pose proof (Z.div_mod (data.month b) 16).
  split; [assumption|].
  rewrite (Z.mod_small (_ + 2000)) by lia.
  lia.
Qed.

(** A register that passes the time-and-date-only validation decodes to a
    minute of at most 59, an hour of at most 23, a day from 1 to 31, a day
    of the week from 1 to 7, a month from 1 to 12 and a year from 2000 to
    2099, and has the time-start bit set. *)
Theorem date_only_ranges (b : Z) :
  data.valid true b = true ->
  data.time_start b = 1
  /\ 0 <= data.get_minute b <= 59
  /\ 0 <= data.get_hour b <= 23
  /\ 1 <= data.get_day b <= 31
  /\ 1 <= data.get_day_of_week b <= 7
  /\ 1 <= data.get_month b <= 12
  /\ 2000 <= data.get_year b <= 2099.
Proof. apply valid_ranges. Qed.

Lemma date_only_ranges_witness :
  2000 <= data.get_year (Z.shiftl (Z.shiftr sample_telegram 20) 20) <= 2099.
Proof.
  apply (date_only_ranges (Z.shiftl (Z.shiftr sample_telegram 20) 20)).
  by_computation.
Defined.

(** * Further properties of the decoder *)

(** What the handling of a minute boundary does to the committed record. *)
Lemma sync_event_cases (d : decoder.t) (ev : debounce.result) :
  decoder.m_state (fst (decoder.sync_event d ev)) = 0
  /\ decoder.m_data_new (fst (decoder.sync_event d ev)) = 0
  /\ decoder.m_last_t (fst (decoder.sync_event d ev)) = decoder.m_last_t d
  /\ ((snd (decoder.sync_event d ev) = decoder.no_result
       /\ decoder.m_data_current (fst (decoder.sync_event d ev))
          = decoder.m_data_current d
       /\ decoder.m_phase (fst (decoder.sync_event d ev)) = decoder.m_phase d)
      \/ (snd (decoder.sync_event d ev) = decoder.has_time_and_date
          /\ decoder.m_state d < 59
          /\ data.valid true (realigned d) = true
          /\ decoder.m_data_current (fst (decoder.sync_event d ev))
             = realigned d
          /\ decoder.m_phase (fst (decoder.sync_event d ev)) = debounce.t ev)
      \/ (snd (decoder.sync_event d ev) = decoder.has_complete
          /\ 59 <= decoder.m_state d
          /\ data.valid false (decoder.m_data_new d) = true
          /\ decoder.m_data_current (fst (decoder.sync_event d ev))
             = decoder.m_data_new d
          /\ decoder.m_phase (fst (decoder.sync_event d ev)) = debounce.t ev)).
Proof.
  unfold decoder.sync_event. fold (realigned d).
  destruct (decoder.m_state d <? 59) eqn:E59.
  - destruct (data.valid true (realigned d)) eqn:Ev;
      cbn [fst snd decoder.m_state decoder.m_data_new decoder.m_last_t
           decoder.m_data_current decoder.m_phase decoder.state_value
           Z.geb Z.compare];
      (split; [reflexivity|split; [reflexivity|split; [reflexivity|]]]).
    + right. left.
      split; [reflexivity|]. split; [lia|].
      split; [reflexivity|]. split; reflexivity.
    + left. split; [reflexivity|]. split; reflexivity.
  - destruct (data.valid false (decoder.m_data_new d)) eqn:Ev;
      cbn [fst snd decoder.m_state decoder.m_data_new decoder.m_last_t
           decoder.m_data_current decoder.m_phase decoder.state_value
           Z.geb Z.compare];
      (split; [reflexivity|split; [reflexivity|split; [reflexivity|]]]).
    + right. right.
      split; [reflexivity|]. split; [lia|].
      split; [reflexivity|]. split; reflexivity.
    + left. split; [reflexivity|]. split; reflexivity.
Qed.

(** A case analysis of a call that completes: without an edge, or on a
    falling edge after a short high phase, or on a rising edge, the committed
    record is untouched and the result is [no_result]; a boundary behaves as
    [sync_event] says. *)
Lemma sample_commit_cases (d : decoder.t) (v : bool) (now : Z)
                          (d' : decoder.t) (res : decoder.state) :
  decoder.sample d v now = decoder.Done d' res ->
  (res = decoder.no_result
   /\ decoder.get_data d' = decoder.get_data d
   /\ decoder.get_phase d' = decoder.get_phase d)
  \/ (minute_boundary d v now
      /\ res = decoder.has_time_and_date
      /\ decoder.m_state d < 59
      /\ data.valid true (realigned d) = true
      /\ decoder.get_data d' = realigned d
      /\ decoder.get_phase d' = debounce.t (decoder.event d v now))
  \/ (minute_boundary d v now
      /\ res = decoder.has_complete
      /\ 59 <= decoder.m_state d
      /\ data.valid false (decoder.m_data_new d) = true
      /\ decoder.get_data d' = decoder.m_data_new d
      /\ decoder.get_phase d' = debounce.t (decoder.event d v now)).
Proof.
  set (d0 := decoder.set_debouncer d
               (debounce.sample (decoder.m_debouncer d) v now)).
  destruct (rising_edge_dec d v now) as [Hr|Hnr].
  - rewrite (sample_rising d v now Hr). fold d0. unfold decoder.bit_pulse.
    destruct (decoder.interval d v now >? _);
      [destruct (if _ >? _ then _ else _) as [reg|]; [|discriminate]|];
      intros H; apply Done_inj in H as [<- <-]; left;
      (split; [reflexivity|]; split; reflexivity).
  - rewrite sample_unfold. cbv zeta. fold d0.
    destruct (debounce.edge (decoder.event d v now)) eqn:Hedge.
    + destruct (debounce.value (decoder.event d v now)) eqn:Hval.
      * exfalso. apply Hnr. split; assumption.
      * cbn [negb andb].
        destruct (decoder.interval d v now >? _) eqn:Hdt.
        -- assert (Hb : minute_boundary d v now)
             by (split; [exact Hedge|split; [exact Hval|lia]]).
           pose proof (sync_event_cases d0 (decoder.event d v now))
             as (_ & _ & _ & Hcases).
           destruct (decoder.sync_event d0 _) as [d1 res1].
           cbn [fst snd] in Hcases.
           intros H. apply Done_inj in H as [<- <-].
           unfold decoder.get_data, decoder.get_phase.
           cbn [decoder.set_last_t decoder.m_data_current decoder.m_phase].
           destruct Hcases as [(-> & -> & ->)|[(-> & Hst & Hv & -> & ->)
                                             |(-> & Hst & Hv & -> & ->)]].
           ++ left. split; [reflexivity|]. split; reflexivity.
           ++ right. left. split; [exact Hb|]. split; [reflexivity|].
              split; [exact Hst|]. split; [exact Hv|]. split; reflexivity.
           ++ right. right. split; [exact Hb|]. split; [reflexivity|].
              split; [exact Hst|]. split; [exact Hv|]. split; reflexivity.
        -- intros H. apply Done_inj in H as [<- <-]. left.
           split; [reflexivity|]. split; reflexivity.
    + intros H. apply Done_inj in H as [<- <-]. left.
      split; [reflexivity|]. split; reflexivity.
Qed.

(** Every minute boundary completes and leaves the bit index at 0 and the
    working register empty, whether or not the validation succeeds; the
    time of the last edge becomes the timestamp of the boundary. *)
Theorem boundary_resets_register (d : decoder.t) (v : bool) (now : Z) :
  minute_boundary d v now ->
  exists d' res,
    decoder.sample d v now = decoder.Done d' res
    /\ decoder.m_state d' = 0
    /\ decoder.m_data_new d' = 0
    /\ decoder.m_last_t d' = debounce.t (decoder.event d v now).
Proof.
  intros Hb. rewrite (sample_boundary d v now Hb).
  pose proof (sync_event_cases
                (decoder.set_debouncer d
                   (debounce.sample (decoder.m_debouncer d) v now))
                (decoder.event d v now)) as (H1 & H2 & _).
  do 2 eexists. split; [reflexivity|].
  cbn [decoder.set_last_t decoder.m_state decoder.m_data_new
       decoder.m_last_t].
  repeat split; assumption.
Qed.

Lemma boundary_resets_register_witness :
  exists d' res,
    decoder.sample (decoder_after sample_minute) false 63000
    = decoder.Done d' res
    /\ decoder.m_state d' = 0
    /\ decoder.m_data_new d' = 0
    /\ decoder.m_last_t d' = 63000.
Proof.
  destruct (boundary_resets_register (decoder_after sample_minute) false 63000)
    as (d' & res & Hs & H1 & H2 & H3).
  - split; [by_computation|]. split; by_computation.
  - exists d', res. split; [exact Hs|]. split; [exact H1|].
    split; [exact H2|]. rewrite H3. by_computation.
Defined.

(** The result of a call tells what happened to the committed record.  With
    [no_result] the record and the phase are untouched.  [has_time_and_date]
    is returned only at a boundary with fewer than 59 bits and
    [has_complete] only at a boundary with at least 59 bits; the record then
    committed has passed the validation of that mode and the phase is the
    timestamp of the boundary. *)
Theorem result_tells_commit (d : decoder.t) (v : bool) (now : Z)
                            (d' : decoder.t) (res : decoder.state) :
  decoder.sample d v now = decoder.Done d' res ->
  (res = decoder.no_result ->
   decoder.get_data d' = decoder.get_data d
   /\ decoder.get_phase d' = decoder.get_phase d)
  /\ (res = decoder.has_time_and_date ->
      minute_boundary d v now
      /\ decoder.m_state d < 59
      /\ decoder.get_data d' = realigned d
      /\ data.valid true (decoder.get_data d') = true
      /\ decoder.get_phase d' = debounce.t (decoder.event d v now))
  /\ (res = decoder.has_complete ->
      minute_boundary d v now
      /\ 59 <= decoder.m_state d
      /\ decoder.get_data d' = decoder.m_data_new d
      /\ data.valid false (decoder.get_data d') = true
      /\ decoder.get_phase d' = debounce.t (decoder.event d v now)).
Proof.
  intros Hs.
  destruct (sample_commit_cases d v now d' res Hs)
    as [(-> & Hd & Hp)|[(Hb & -> & Hst & Hv & Hd & Hp)
                       |(Hb & -> & Hst & Hv & Hd & Hp)]].
  - repeat split; try discriminate; assumption.
  - split; [discriminate|]. split; [|discriminate].
    intros _. rewrite Hd. repeat split; try assumption; apply Hb.
  - split; [discriminate|]. split; [discriminate|].
    intros _. rewrite Hd. repeat split; try assumption; apply Hb.
Qed.

Lemma result_tells_commit_witness :
  exists d',
    decoder.sample (decoder_after partial_minute) false 41000
    = decoder.Done d' decoder.has_time_and_date
    /\ data.valid true (decoder.get_data d') = true.
Proof.
  assert (Hs : decoder.sample (decoder_after partial_minute) false 41000
               = decoder.Done
                   (match decoder.sample (decoder_after partial_minute)
                            false 41000 with
                    | decoder.Done d' _ => d'
                    | decoder.ShiftOutOfRange _ => decoder.init
                    end) decoder.has_time_and_date) by by_computation.
  remember (match decoder.sample (decoder_after partial_minute) false 41000
            with
            | decoder.Done d' _ => d'
            | decoder.ShiftOutOfRange _ => decoder.init
            end) as d' eqn:Hd'.
  clear Hd'. exists d'. split; [exact Hs|].
  destruct (result_tells_commit _ _ _ _ _ Hs) as (_ & Htd & _).
  destruct (Htd eq_refl) as (_ & _ & _ & Hv & _). exact Hv.
Defined.

Lemma run_committed_ok (trace : list (bool * Z)) :
  forall d d', committed_ok d -> decoder.run d trace = Some d' ->
               committed_ok d'.
Proof.
  induction trace as [|c rest IH]; intros d d' Hok Hrun.
  - injection Hrun as <-. exact Hok.
  - rewrite run_cons_decoder in Hrun.
    destruct (decoder.sample d (fst c) (snd c)) as [d1 res|n] eqn:Hs;
      [|discriminate].
    apply (IH d1 d'); [|exact Hrun].
    destruct (sample_commit_cases d (fst c) (snd c) d1 res Hs)
      as [(_ & Hd & _)|[(_ & _ & _ & Hv & Hd & _)|(_ & _ & _ & Hv & Hd & _)]];
      unfold committed_ok; rewrite Hd.
    + exact Hok.
    + right. exact Hv.
    + right. apply valid_full_date_only. exact Hv.
Qed.

(** Whatever signal a default-constructed decoder is fed, the record read by
    [get_data] is the empty record it started with or a record that has
    passed the time-and-date validation, so that its decoded fields are in
    range. *)
Theorem committed_record_stays_valid (trace : list (bool * Z))
                                     (d : decoder.t) :
  decoder.run decoder.init trace = Some d ->
  decoder.get_data d = 0
  \/ (data.valid true (decoder.get_data d) = true
      /\ 0 <= data.get_minute (decoder.get_data d) <= 59
      /\ 0 <= data.get_hour (decoder.get_data d) <= 23
      /\ 1 <= data.get_day (decoder.get_data d) <= 31
      /\ 1 <= data.get_day_of_week (decoder.get_data d) <= 7
      /\ 1 <= data.get_month (decoder.get_data d) <= 12
      /\ 2000 <= data.get_year (decoder.get_data d) <= 2099).
Proof.
  intros Hrun.
  destruct (run_committed_ok trace decoder.init d) as [H0|Hv].
  - left. reflexivity.
  - exact Hrun.
  - left. exact H0.
  - right. split; [exact Hv|].
    apply (valid_ranges true) in Hv. apply Hv.
Qed.

Lemma committed_record_stays_valid_witness :
  data.valid true
    (decoder.get_data (decoder_after (sample_minute ++ [(false, 63000)])))
  = true.
Proof.
  destruct (committed_record_stays_valid
              (sample_minute ++ [(false, 63000)])
              (decoder_after (sample_minute ++ [(false, 63000)])))
    as [H0|[Hv _]].
  - by_computation.
  - exfalso. revert H0. by_computation.
  - exact Hv.
Defined.

Lemma run_fresh (trace : list (bool * Z)) :
  forall d d',
    fresh d ->
    (forall k dk, decoder.run d (firstn k trace) = Some dk ->
                  decoder.m_state dk < 64) ->
    decoder.run d trace = Some d' -> fresh d'.
Proof.
  induction trace as [|c rest IH]; intros d d' Hf Hbound Hrun.
  - injection Hrun as <-. exact Hf.
  - rewrite run_cons_decoder in Hrun.
    destruct (decoder.sample d (fst c) (snd c)) as [d1 res|n] eqn:Hs;
      [|discriminate].
    apply (IH d1 d'); [| |exact Hrun].
    + apply (sample_fresh d (fst c) (snd c) d1 res Hf); [|exact Hs].
      apply (Hbound O). reflexivity.
    + intros k dk Hk. apply (Hbound (S k)).
      cbn [firstn]. rewrite run_cons_decoder, Hs. exact Hk.
Qed.

(** As long as every call is made with a bit index below 64, the working
    register of a decoder started from its default state has no bit set at
    or above the bit index. *)
Theorem register_stays_fresh (trace : list (bool * Z)) (d : decoder.t) :
  (forall k dk, decoder.run decoder.init (firstn k trace) = Some dk ->
                decoder.m_state dk < 64) ->
  decoder.run decoder.init trace = Some d ->
  0 <= decoder.m_data_new d < 2 ^ decoder.m_state d
  /\ forall i, decoder.m_state d <= i ->
               Z.testbit (decoder.m_data_new d) i = false.
Proof.
  intros Hbound Hrun.
  destruct (run_fresh trace decoder.init d fresh_init Hbound Hrun)
    as (Hst & Hreg).
  split; [exact Hreg|]. intros i Hi.
  rewrite <- (Z.mod_small _ _ Hreg).
  apply Z.mod_pow2_bits_high. lia.
Qed.

Lemma index_below_64_sound (trace : list (bool * Z)) :
  forall d,
    index_below_64 d trace = true ->
    forall k dk, decoder.run d (firstn k trace) = Some dk ->
                 decoder.m_state dk < 64.
Proof.
  induction trace as [|c rest IH]; intros d Hb k dk Hrun.
  - rewrite firstn_nil in Hrun. injection Hrun as <-.
    cbn [index_below_64] in Hb. apply andb_prop in Hb as [Hb _]. lia.
  - cbn [index_below_64] in Hb. apply andb_prop in Hb as [Hd Hb].
    destruct k as [|k].
    + injection Hrun as <-. lia.
    + cbn [firstn] in Hrun. rewrite run_cons_decoder in Hrun.
      destruct (decoder.sample d (fst c) (snd c)) as [d1 res|n];
        [|discriminate].
      apply (IH d1 Hb k dk Hrun).
Qed.

Lemma register_stays_fresh_witness :
  0 <= decoder.m_data_new (decoder_after sample_minute)
    < 2 ^ decoder.m_state (decoder_after sample_minute).
Proof.
  apply (register_stays_fresh sample_minute (decoder_after sample_minute)).
  - apply index_below_64_sound. by_computation.
  - by_computation.
Defined.

(** * Pulse trains *)

Lemma iter_saturates (n : nat) (v : bool) (x : Z) :
  97 <= Z.of_nat n -> 0 <= x <= 97 ->
  Nat.iter n (filter v) x = if v then 97 else 0.
Proof.
  intros Hn Hx. pose proof (iter_filter_range n v x Hx).
  destruct v.
  - pose proof (iter_filter_true n x Hx). lia.
  - pose proof (iter_filter_false n x Hx). lia.
Qed.

(** After a gap of at least 97 ticks a settled filter that sees the other
    input level is settled on that level and reports the edge at once. *)
Lemma settled_filter_step (lvl : bool) (a now : Z) :
  97 <= to_uint16 (now - a) ->
  debounce.sample (settled_filter lvl a) (negb lvl) now
  = settled_filter (negb lvl) now.
Proof.
  intros Hgap. unfold debounce.sample, settled_filter.
  cbn [debounce.m_low_pass debounce.m_last_t debounce.m_last_state_change
       debounce.m_hysteresis debounce.m_last_input_value debounce.m_result].
  rewrite low_pass_loop_iter, FLT_MAX_value, FLT_MIN_value.
  rewrite iter_saturates by (destruct lvl; lia).
  destruct lvl; reflexivity.
Qed.

Lemma settled_event (lvl : bool) (a k reg cur ph now : Z) :
  97 <= to_uint16 (now - a) ->
  debounce.sample
    (decoder.m_debouncer (settled_decoder lvl a k reg cur ph)) (negb lvl) now
  = settled_filter (negb lvl) now
  /\ decoder.event (settled_decoder lvl a k reg cur ph) (negb lvl) now
     = debounce.mk_result now (negb lvl) true
  /\ decoder.interval (settled_decoder lvl a k reg cur ph) (negb lvl) now
     = to_uint16 (now - a).
Proof.
  intros Hgap. unfold decoder.interval, decoder.event.
  cbn [settled_decoder decoder.m_debouncer decoder.m_last_t].
  rewrite (settled_filter_step lvl a now Hgap).
  repeat split.
Qed.

(** The rising edge that ends a pulse of [dt >= 97] ticks: a one when
    [dt > 150], a zero otherwise. *)
Lemma settled_rising (a k reg cur ph now : Z) :
  97 <= to_uint16 (now - a) -> 0 <= k < 64 ->
  decoder.sample (settled_decoder false a k reg cur ph) true now
  = decoder.Done
      (settled_decoder true now (k + 1)
         (if to_uint16 (now - a) >? 150 then Z.lor reg (2 ^ k) else reg)
         cur ph)
      decoder.no_result.
Proof.
  intros Hgap Hk.
  destruct (settled_event false a k reg cur ph now Hgap) as (Hdeb & Hev & Hdt).
  cbn [negb] in Hdeb, Hev, Hdt.
  rewrite sample_rising by (unfold rising_edge; rewrite Hev; split; reflexivity).
  rewrite Hdt, Hev, Hdeb. unfold decoder.bit_pulse.
  cbn [decoder.set_debouncer settled_decoder decoder.m_state
       decoder.m_data_new decoder.m_phase decoder.m_last_t
       decoder.m_data_current decoder.m_debouncer debounce.t].
  change (decoder.LOW_ZERO_TIME - decoder.SLACK) with 50.
  change (decoder.LOW_ONE_TIME - decoder.SLACK) with 150.
  replace (to_uint16 (now - a) >? 50) with true by lia.
  replace (k <? 64) with true by lia.
  replace (to_uint8 (k + 1)) with (k + 1)
    by (symmetry; apply Z.mod_small; lia).
  rewrite one_bit_in_range by lia.
  destruct (to_uint16 (now - a) >? 150); reflexivity.
Qed.

(** The falling edge that starts a pulse, after a high phase too short for
    a minute mark. *)
Lemma settled_falling (a k reg cur ph now : Z) :
  97 <= to_uint16 (now - a) <= 1750 ->
  decoder.sample (settled_decoder true a k reg cur ph) false now
  = decoder.Done (settled_decoder false now k reg cur ph) decoder.no_result.
Proof.
  intros Hgap.
  destruct (settled_event true a k reg cur ph now ltac:(lia))
    as (Hdeb & Hev & Hdt).
  cbn [negb] in Hdeb, Hev, Hdt.
  rewrite sample_unfold. cbv zeta. rewrite Hdt, Hev, Hdeb.
  cbn [debounce.edge debounce.value debounce.t negb andb].
  change (decoder.SYNC_HIGH_TIME - decoder.SLACK) with 1750.
  replace (to_uint16 (now - a) >? 1750) with false by lia.
  reflexivity.
Qed.

(** The falling edge of a minute mark. *)
Lemma settled_boundary (a k reg cur ph now : Z) :
  1750 < to_uint16 (now - a) ->
  decoder.sample (settled_decoder true a k reg cur ph) false now
  = decoder.Done
      (settled_decoder false now 0 0
         (decoder.m_data_current
            (fst (decoder.sync_event (settled_decoder true a k reg cur ph)
                                     (debounce.mk_result now false true))))
         (decoder.m_phase
            (fst (decoder.sync_event (settled_decoder true a k reg cur ph)
                                     (debounce.mk_result now false true)))))
      (snd (decoder.sync_event (settled_decoder true a k reg cur ph)
                               (debounce.mk_result now false true))).
Proof.
  intros Hgap.
  destruct (settled_event true a k reg cur ph now ltac:(lia))
    as (Hdeb & Hev & Hdt).
  cbn [negb] in Hdeb, Hev, Hdt.
  rewrite sample_boundary
    by (unfold minute_boundary; rewrite Hev, Hdt;
        split; [reflexivity|split; [reflexivity|]];
        change (decoder.SYNC_HIGH_TIME - decoder.SLACK) with 1750; lia).
  rewrite Hev, Hdeb. unfold decoder.sync_event.
  cbn [decoder.set_debouncer settled_decoder decoder.m_state
       decoder.m_data_new decoder.m_phase decoder.m_last_t
       decoder.m_data_current decoder.m_debouncer debounce.t].
  destruct (k <? 59); [destruct (data.valid true _)|destruct (data.valid false _)];
    reflexivity.
Qed.

(** Intervals are measured modulo 2^16, so reducing the timestamps to 16
    bits does not change them. *)
Lemma uint16_gap (x y : Z) :
  to_uint16 (to_uint16 x - to_uint16 y) = to_uint16 (x - y).
Proof. unfold to_uint16. symmetry. apply Zminus_mod. Qed.

Lemma lor_fresh_bit (reg k : Z) :
  0 <= k -> 0 <= reg < 2 ^ k -> Z.lor reg (2 ^ k) = reg + 2 ^ k.
Proof.
  intros Hk Hreg.
  assert (Hdisj : Z.land reg (2 ^ k) = 0).
  { apply Z.bits_inj'. intros n Hn. rewrite Z.land_spec, Z.bits_0.
    destruct (Z.eq_dec n k) as [->|Hne].
    - rewrite <- (Z.mod_small _ _ Hreg) at 1.
      rewrite Z.mod_pow2_bits_high by lia. reflexivity.
    - rewrite Z.pow2_bits_false by lia. apply andb_false_r. }
  rewrite (Z.add_nocarry_lxor _ _ Hdisj).
  apply Z.bits_inj'. intros n Hn.
  rewrite Z.lor_spec, Z.lxor_spec.
  assert (Hn0 : Z.testbit (Z.land reg (2 ^ k)) n = false)
    by (rewrite Hdisj; apply Z.bits_0).
  rewrite Z.land_spec in Hn0.
  destruct (Z.testbit reg n), (Z.testbit (2 ^ k) n);
    try reflexivity; discriminate.
Qed.

Lemma pulse_end (a k reg cur ph : Z) (b : bool) :
  0 <= k < 64 -> 0 <= reg < 2 ^ k ->
  decoder.sample (settled_decoder false (to_uint16 a) k reg cur ph) true
                 (to_uint16 (a + (if b then 200 else 100)))
  = decoder.Done
      (settled_decoder true (to_uint16 (a + (if b then 200 else 100)))
                       (k + 1) (reg + 2 ^ k * Z.b2z b) cur ph)
      decoder.no_result.
Proof.
  intros Hk Hreg.
  assert (Hgap : to_uint16 (to_uint16 (a + (if b then 200 else 100))
                            - to_uint16 a)
                 = if b then 200 else 100).
  { rewrite uint16_gap.
    replace (a + (if b then 200 else 100) - a)
      with (if b then 200 else 100) by lia.
    destruct b; reflexivity. }
  rewrite settled_rising by (rewrite ?Hgap; destruct b; lia).
  rewrite Hgap. f_equal. f_equal.
  destruct b; cbn [Z.b2z Z.gtb Z.compare Pos.compare Pos.compare_cont].
  - rewrite lor_fresh_bit by lia. lia.
  - lia.
Qed.

Lemma pulse_start (a k reg cur ph : Z) (b : bool) :
  decoder.sample
    (settled_decoder true (to_uint16 (a + (if b then 200 else 100)))
                     k reg cur ph)
    false (to_uint16 (a + 1000))
  = decoder.Done (settled_decoder false (to_uint16 (a + 1000)) k reg cur ph)
                 decoder.no_result.
Proof.
  apply settled_falling. rewrite uint16_gap.
  replace (a + 1000 - (a + (if b then 200 else 100)))
    with (if b then 800 else 900) by (destruct b; lia).
  destruct b; cbv; split; discriminate.
Qed.

Lemma pulses_cons (start : Z) (b : bool) (rest : list bool) :
  pulses start (b :: rest)
  = (false, to_uint16 start)
      :: (true, to_uint16 (start + (if b then 200 else 100)))
      :: pulses (start + 1000) rest.
Proof. reflexivity. Qed.

(** From the falling edge that starts a pulse: the pulse and all pulses
    that follow are accepted as the bits they encode. *)
Lemma run_pulses_low (rest : list bool) :
  forall (b0 : bool) (a k reg cur ph : Z),
    0 <= k -> k + 1 + Z.of_nat (length rest) <= 64 ->
    0 <= reg < 2 ^ k ->
    decoder.run (settled_decoder false (to_uint16 a) k reg cur ph)
      ((true, to_uint16 (a + (if b0 then 200 else 100)))
         :: pulses (a + 1000) rest)
    = Some (settled_decoder true (to_uint16 (last_rise a b0 rest))
              (k + 1 + Z.of_nat (length rest))
              (reg + 2 ^ k * bits_value (b0 :: rest)) cur ph).
Proof.
  induction rest as [|b1 rest' IH]; intros b0 a k reg cur ph Hk Hlen Hreg.
  - cbn [length Z.of_nat] in Hlen.
    rewrite run_cons_decoder. cbn [fst snd].
    rewrite pulse_end by lia. cbn [pulses decoder.run last_rise bits_value length
                                    Z.of_nat].
    do 2 f_equal; lia.
  - assert (Hlen' : k + 2 + Z.of_nat (length rest') <= 64)
      by (cbn [length] in Hlen; lia).
    rewrite run_cons_decoder. cbn [fst snd].
    rewrite pulse_end by lia.
    rewrite pulses_cons, run_cons_decoder. cbn [fst snd].
    rewrite pulse_start.
    assert (Hpow : 2 ^ (k + 1) = 2 * 2 ^ k)
      by (rewrite Z.pow_add_r by lia; change (2 ^ 1) with 2; lia).
    assert (Hp : 0 < 2 ^ k) by (apply Z.pow_pos_nonneg; lia).
    rewrite IH; [|lia|lia|destruct b0; cbn [Z.b2z]; lia].
    cbn [last_rise length]. f_equal. f_equal.
    + lia.
    + rewrite Hpow. cbn [bits_value]. lia.
Qed.

Lemma last_rise_time (rest : list bool) :
  forall (a : Z) (b0 : bool),
    last_rise a b0 rest = a + 1000 * Z.of_nat (length rest) + 100
    \/ last_rise a b0 rest = a + 1000 * Z.of_nat (length rest) + 200.
Proof.
  induction rest as [|b1 rest' IH]; intros a b0.
  - cbn [last_rise length Z.of_nat]. destruct b0; [right|left]; lia.
  - cbn [last_rise length]. destruct (IH (a + 1000) b1) as [->| ->];
      [left|right]; lia.
Qed.

Lemma bits_value_seq (b : Z) (n : nat) :
  forall j : nat,
    bits_value (map (fun i => Z.testbit b (Z.of_nat i)) (seq j n))
    = (b / 2 ^ Z.of_nat j) mod 2 ^ Z.of_nat n.
Proof.
  induction n as [|n IH]; intros j.
  - cbn [seq map bits_value Z.of_nat]. rewrite Z.pow_0_r, Z.mod_1_r.
    reflexivity.
  - cbn [seq map bits_value]. rewrite IH.
    rewrite Z.testbit_spec' by lia.
    replace (Z.of_nat (S n)) with (1 + Z.of_nat n) by lia.
    rewrite (Z.pow_add_r 2 1) by lia. change (2 ^ 1) with 2.
    rewrite Z.rem_mul_r by (try lia; apply Z.pow_pos_nonneg; lia).
    replace (Z.of_nat (S j)) with (Z.of_nat j + 1) by lia.
    rewrite (Z.pow_add_r 2 (Z.of_nat j) 1) by lia. change (2 ^ 1) with 2.
    rewrite <- Z.div_div by (try lia; apply Z.pow_pos_nonneg; lia).
    reflexivity.
Qed.

Lemma telegram_bits_value (b : Z) :
  0 <= b < 2 ^ 59 -> bits_value (telegram_bits b) = b.
Proof.
  intros Hb. unfold telegram_bits. rewrite bits_value_seq.
  change (2 ^ Z.of_nat 0) with 1. rewrite Z.div_1_r.
  apply Z.mod_small. exact Hb.
Qed.

(** After a pause that is no minute mark, a train of pulses is accepted bit
    by bit: the bit index advances by the number of pulses, the bits land in
    the register from the old bit index on, and the committed record is not
    touched.  Timestamps may wrap around 2^16 anywhere in the train. *)
Theorem pulses_are_accumulated
    (bits : list bool) (e s k reg cur ph : Z) :
  bits <> [] ->
  97 <= to_uint16 (s - e) <= 1750 ->
  0 <= k -> k + Z.of_nat (length bits) <= 64 ->
  0 <= reg < 2 ^ k ->
  exists d,
    decoder.run (settled_decoder true (to_uint16 e) k reg cur ph)
                (pulses s bits) = Some d
    /\ decoder.m_state d = k + Z.of_nat (length bits)
    /\ decoder.m_data_new d = reg + 2 ^ k * bits_value bits
    /\ decoder.get_data d = cur
    /\ decoder.get_phase d = ph.
Proof.
  intros Hne Hgap Hk Hlen Hreg.
  destruct bits as [|b0 rest]; [congruence|].
  rewrite pulses_cons, run_cons_decoder. cbn [fst snd].
  rewrite settled_falling by (rewrite uint16_gap; exact Hgap).
  cbn [length] in Hlen.
  rewrite run_pulses_low by lia.
  eexists. split; [reflexivity|].
  cbn [settled_decoder decoder.m_state decoder.m_data_new decoder.get_data
       decoder.get_phase decoder.m_data_current decoder.m_phase length].
  repeat split. lia.
Qed.

Lemma cold_start_high :
  decoder.run decoder.init [(true, 1000)]
  = Some (settled_decoder true (to_uint16 1000) 1 1 0 0).
Proof. by_computation. Qed.

Lemma pulses_are_accumulated_witness :
  exists d,
    decoder.run (settled_decoder true (to_uint16 1000) 1 1 0 0)
                (pulses 1500 [true; false; true]) = Some d
    /\ decoder.m_state d = 1 + Z.of_nat (length [true; false; true])
    /\ decoder.m_data_new d = 1 + 2 ^ 1 * bits_value [true; false; true]
    /\ decoder.get_data d = 0
    /\ decoder.get_phase d = 0.
Proof.
  apply (pulses_are_accumulated [true; false; true] 1000 1500 1 1 0 0).
  - discriminate.
  - split; by_computation.
  - lia.
  - cbn [length Z.of_nat]. lia.
  - cbn. lia.
Defined.

Lemma telegram_bits_cons (b : Z) :
  telegram_bits b
  = Z.testbit b 0 :: map (fun i => Z.testbit b (Z.of_nat i)) (seq 1 58).
Proof. reflexivity. Qed.

(** A minute mark followed by the 59 pulses of a register below 2^59 leaves
    a decoder that has the register in its working register, bit index 59,
    and the carrier high since less than 2000 - 1750 ticks before the next
    minute mark is due. *)
Lemma run_minute (b e s k reg cur ph : Z) :
  0 <= b < 2 ^ 59 ->
  1750 < to_uint16 (s - e) ->
  exists e' cur' ph',
    decoder.run (settled_decoder true (to_uint16 e) k reg cur ph)
                (pulses s (telegram_bits b))
    = Some (settled_decoder true (to_uint16 e') 59 b cur' ph')
    /\ 1750 < to_uint16 (s + 60000 - e').
Proof.
  intros Hb Hgap.
  pose proof (telegram_bits_value b Hb) as Hval.
  rewrite telegram_bits_cons in *.
  set (rest := map (fun i => Z.testbit b (Z.of_nat i)) (seq 1 58)) in *.
  assert (Hlen : length rest = 58%nat)
    by (subst rest; rewrite length_map, length_seq; reflexivity).
  rewrite pulses_cons, run_cons_decoder. cbn [fst snd].
  rewrite settled_boundary by (rewrite uint16_gap; exact Hgap).
  rewrite run_pulses_low by (rewrite ?Hlen; cbn; lia).
  rewrite Hval, Hlen.
  do 3 eexists. split.
  - f_equal. f_equal. change (2 ^ 0) with 1. lia.
  - destruct (last_rise_time rest s (Z.testbit b 0)) as [-> | ->];
      rewrite Hlen.
    + replace (s + 60000 - (s + 1000 * Z.of_nat 58 + 100)) with 1900 by lia.
      reflexivity.
    + replace (s + 60000 - (s + 1000 * Z.of_nat 58 + 200)) with 1800 by lia.
      reflexivity.
Qed.

(** Round trip.  A settled decoder that sees a minute mark, then the 59
    pulses that encode a register which passes the full validation, and
    then the next minute mark 60000 ticks after the first returns
    [has_complete] at that mark: the record read by [get_data] is the
    register that was encoded, and the phase is the timestamp of the mark.
    This holds for every start time, across wrap-arounds of the 16-bit
    timestamp, and whatever the decoder had captured before. *)
Theorem complete_minute_round_trip (b e s k reg cur ph : Z) :
  0 <= b < 2 ^ 59 ->
  data.valid false b = true ->
  1750 < to_uint16 (s - e) ->
  exists d d',
    decoder.run (settled_decoder true (to_uint16 e) k reg cur ph)
                (pulses s (telegram_bits b)) = Some d
    /\ decoder.m_state d = 59
    /\ decoder.m_data_new d = b
    /\ decoder.sample d false (to_uint16 (s + 60000))
       = decoder.Done d' decoder.has_complete
    /\ decoder.get_data d' = b
    /\ decoder.get_phase d' = to_uint16 (s + 60000).
Proof.
  intros Hb Hvalid Hgap.
  destruct (run_minute b e s k reg cur ph Hb Hgap)
    as (e' & cur' & ph' & Hrun & Hmark).
  rewrite Hrun.
  do 2 eexists. split; [reflexivity|].
  split; [reflexivity|]. split; [reflexivity|].
  rewrite settled_boundary by (rewrite uint16_gap; exact Hmark).
  unfold decoder.sync_event.
  cbn [settled_decoder decoder.m_state decoder.m_data_new
       decoder.m_data_current decoder.m_phase].
  change (59 <? 59) with false. rewrite Hvalid.
  split; [reflexivity|]. split; reflexivity.
Qed.

(** The cold start: a default-constructed decoder first sees the carrier
    high at tick 1000, and the minute mark comes at tick 3000. *)
Lemma complete_minute_round_trip_witness :
  decoder.run decoder.init [(true, 1000)]
  = Some (settled_decoder true (to_uint16 1000) 1 1 0 0)
  /\ exists d d',
    decoder.run (settled_decoder true (to_uint16 1000) 1 1 0 0)
                (pulses 3000 (telegram_bits sample_telegram)) = Some d
    /\ decoder.m_state d = 59
    /\ decoder.m_data_new d = sample_telegram
    /\ decoder.sample d false (to_uint16 (3000 + 60000))
       = decoder.Done d' decoder.has_complete
    /\ decoder.get_data d' = sample_telegram
    /\ decoder.get_phase d' = to_uint16 (3000 + 60000).
Proof.
  split; [exact cold_start_high|].
  apply (complete_minute_round_trip sample_telegram 1000 3000 1 1 0 0).
  - unfold sample_telegram. lia.
  - by_computation.
  - by_computation.
Defined.

(** The same signal for a register that fails the full validation: the
    minute mark returns [no_result] and the committed record and phase stay
    as they were before the mark. *)
Theorem invalid_minute_is_rejected (b e s k reg cur ph : Z) :
  0 <= b < 2 ^ 59 ->
  data.valid false b = false ->
  1750 < to_uint16 (s - e) ->
  exists d d',
    decoder.run (settled_decoder true (to_uint16 e) k reg cur ph)
                (pulses s (telegram_bits b)) = Some d
    /\ decoder.sample d false (to_uint16 (s + 60000))
       = decoder.Done d' decoder.no_result
    /\ decoder.get_data d' = decoder.get_data d
    /\ decoder.get_phase d' = decoder.get_phase d
    /\ decoder.m_state d' = 0
    /\ decoder.m_data_new d' = 0.
Proof.
  intros Hb Hvalid Hgap.
  destruct (run_minute b e s k reg cur ph Hb Hgap)
    as (e' & cur' & ph' & Hrun & Hmark).
  rewrite Hrun.
  do 2 eexists. split; [reflexivity|].
  rewrite settled_boundary by (rewrite uint16_gap; exact Hmark).
  unfold decoder.sync_event.
  cbn [settled_decoder decoder.m_state decoder.m_data_new
       decoder.m_data_current decoder.m_phase].
  change (59 <? 59) with false. rewrite Hvalid.
  split; [reflexivity|]. repeat split.
Qed.

Lemma invalid_minute_is_rejected_witness :
  exists d d',
    decoder.run (settled_decoder true (to_uint16 1000) 1 1 0 0)
                (pulses 3000 (telegram_bits 0)) = Some d
    /\ decoder.sample d false (to_uint16 (3000 + 60000))
       = decoder.Done d' decoder.no_result
    /\ decoder.get_data d' = decoder.get_data d
    /\ decoder.get_phase d' = decoder.get_phase d
    /\ decoder.m_state d' = 0
    /\ decoder.m_data_new d' = 0.
Proof.
  apply (invalid_minute_is_rejected 0 1000 3000 1 1 0 0).
  - lia.
  - by_computation.
  - by_computation.
Defined.

Lemma run_app_decoder (t1 t2 : list (bool * Z)) :
  forall d,
    decoder.run d (t1 ++ t2)
    = match decoder.run d t1 with
      | Some d' => decoder.run d' t2
      | None => None
      end.
Proof.
  induction t1 as [|c rest IH]; intros d; [reflexivity|].
  cbn [app]. rewrite !run_cons_decoder.
  destruct (decoder.sample d (fst c) (snd c)); [apply IH|reflexivity].
Qed.

(** The time-and-date validation and the time and date accessors read the
    register from bit 20 on only. *)
Lemma high_bits_only (x y : Z) :
  Z.shiftr x 20 = Z.shiftr y 20 ->
  data.valid true x = data.valid true y
  /\ data.get_minute x = data.get_minute y
  /\ data.get_hour x = data.get_hour y
  /\ data.get_day x = data.get_day y
  /\ data.get_day_of_week x = data.get_day_of_week y
  /\ data.get_month x = data.get_month y
  /\ data.get_year x = data.get_year y.
Proof.
  intros Hhigh.
  assert (Hfield : forall off w, 20 <= off ->
            data.field off w x = data.field off w y).
  { intros off w Hoff. unfold data.field.
    replace off with (20 + (off - 20)) by lia.
    rewrite <- !Z.shiftr_shiftr by lia. rewrite Hhigh. reflexivity. }
  assert (Hdate : Z.shiftr (Z.land x data.DATE_MASK) 32
                  = Z.shiftr (Z.land y data.DATE_MASK) 32).
  { rewrite !Z.shiftr_land. change 32 with (20 + 12).
    rewrite <- !(Z.shiftr_shiftr _ 20 12) by lia.
    rewrite Hhigh. reflexivity. }
  unfold data.get_minute, data.get_hour, data.get_day, data.get_day_of_week,
    data.get_month, data.get_year, data.valid, data.time_start,
    data.parity_minute, data.minute, data.parity_hour, data.hour,
    data.parity_date, data.day, data.day_of_week, data.month, data.year.
  cbn [orb]. rewrite Hdate, !(Hfield _ _) by lia.
  repeat split.
Qed.

Lemma cold_start_low :
  decoder.run decoder.init [(false, 1000); (true, 1200); (false, 2000)]
  = Some (settled_decoder false (to_uint16 2000) 1 1 0 0).
Proof. by_computation. Qed.

(** Partial capture.  A default-constructed decoder that is switched on
    during second 19 of a minute whose register passes the time-and-date
    validation captures the 39 pulses of bits 20 to 58; at the minute mark it
    returns [has_time_and_date], the record read by [get_data] is the
    register with the bits below bit 20 cleared, and it decodes to the minute,
    hour, day, day of the week, month and year that were transmitted. *)
Theorem partial_capture_recovers_time (b : Z) :
  0 <= b < 2 ^ 59 ->
  data.valid true b = true ->
  exists d d',
    decoder.run decoder.init (pulses 1000 (skipn 20 (telegram_bits b)))
    = Some d
    /\ decoder.m_state d = 39
    /\ decoder.sample d false 41000
       = decoder.Done d' decoder.has_time_and_date
    /\ decoder.get_data d' = Z.shiftl (Z.shiftr b 20) 20
    /\ decoder.get_phase d' = 41000
    /\ data.get_minute (decoder.get_data d') = data.get_minute b
    /\ data.get_hour (decoder.get_data d') = data.get_hour b
    /\ data.get_day (decoder.get_data d') = data.get_day b
    /\ data.get_day_of_week (decoder.get_data d') = data.get_day_of_week b
    /\ data.get_month (decoder.get_data d') = data.get_month b
    /\ data.get_year (decoder.get_data d') = data.get_year b.
Proof.
  intros Hb Hvalid.
  (* bit 20 is the time-start bit *)
  assert (Hstart : Z.testbit b 20 = true).
  { destruct (valid_ranges true b Hvalid) as (Hts & _).
    assert (H0 : Z.testbit (data.field 20 (Z.of_nat 1) b) 0 = true).
    { change (data.field 20 (Z.of_nat 1) b) with (data.time_start b).
      rewrite Hts. reflexivity. }
    rewrite field_testbit in H0 by lia.
    apply andb_prop in H0 as [H0 _]. exact H0. }
  (* the captured bits spell the register from bit 20 on *)
  assert (Hbits : skipn 20 (telegram_bits b)
                  = true :: Z.testbit b 21
                      :: map (fun i => Z.testbit b (Z.of_nat i)) (seq 22 37)).
  { unfold telegram_bits. cbn [seq map skipn Z.of_nat Pos.of_succ_nat
                                   Pos.succ]. rewrite Hstart. reflexivity. }
  assert (Hval : bits_value (skipn 20 (telegram_bits b)) = Z.shiftr b 20).
  { change (skipn 20 (telegram_bits b))
      with (map (fun i => Z.testbit b (Z.of_nat i)) (seq 20 39)).
    rewrite bits_value_seq, Z.shiftr_div_pow2 by lia.
    apply Z.mod_small. split.
    - apply Z.div_pos; lia.
    - apply Z.div_lt_upper_bound; [lia|].
      change (2 ^ Z.of_nat 20 * 2 ^ Z.of_nat 39) with (2 ^ 59). lia. }
  rewrite Hbits in *.
  set (rest := map (fun i => Z.testbit b (Z.of_nat i)) (seq 22 37)) in *.
  assert (Hlen : length rest = 37%nat)
    by (subst rest; rewrite length_map, length_seq; reflexivity).
  rewrite pulses_cons.
  change (pulses (1000 + 1000) (Z.testbit b 21 :: rest))
    with ((false, 2000)
            :: (true, to_uint16 (2000 + (if Z.testbit b 21 then 200 else 100)))
            :: pulses (2000 + 1000) rest).
  change ((false, to_uint16 1000)
            :: (true, to_uint16 (1000 + 200))
            :: (false, 2000)
            :: (true, to_uint16 (2000 + (if Z.testbit b 21 then 200 else 100)))
            :: pulses (2000 + 1000) rest)
    with ([(false, 1000); (true, 1200); (false, 2000)]
            ++ (true, to_uint16 (2000 + (if Z.testbit b 21 then 200 else 100)))
            :: pulses (2000 + 1000) rest).
  rewrite run_app_decoder, cold_start_low.
  rewrite run_pulses_low by (rewrite ?Hlen; cbn; lia).
  rewrite Hlen.
  assert (Hreg : 1 + 2 ^ 1 * bits_value (Z.testbit b 21 :: rest)
                 = Z.shiftr b 20)
    by (rewrite <- Hval; cbn [bits_value Z.b2z]; lia).
  rewrite Hreg.
  assert (Hmark : 1750 < to_uint16 (41000 - last_rise 2000 (Z.testbit b 21)
                                                           rest)).
  { destruct (last_rise_time rest 2000 (Z.testbit b 21)) as [-> | ->];
      rewrite Hlen; reflexivity. }
  assert (Hre : to_uint64 (Z.shiftl (Z.shiftr b 20) (59 - 39))
                = Z.shiftl (Z.shiftr b 20) 20).
  { change (59 - 39) with 20. unfold to_uint64.
    change 18446744073709551616 with (2 ^ 64).
    rewrite Z.shiftl_mul_pow2, Z.shiftr_div_pow2 by lia.
    apply Z.mod_small.
    pose proof (Z.mul_div_le b (2 ^ 20) ltac:(lia)).
    assert (0 <= b / 2 ^ 20) by (apply Z.div_pos; lia).
    assert (2 ^ 59 < 2 ^ 64) by (apply Z.pow_lt_mono_r; lia).
    lia. }
  assert (Hhigh : Z.shiftr (Z.shiftl (Z.shiftr b 20) 20) 20 = Z.shiftr b 20).
  { rewrite Z.shiftr_shiftl_l by lia. change (20 - 20) with 0.
    apply Z.shiftl_0_r. }
  destruct (high_bits_only _ _ Hhigh)
    as (Hv & Hmi & Hho & Hda & Hdw & Hmo & Hye).
  do 2 eexists. split; [reflexivity|].
  split; [reflexivity|].
  change 41000 with (to_uint16 41000) at 1.
  rewrite settled_boundary by (rewrite uint16_gap; exact Hmark).
  unfold decoder.sync_event.
  cbn [settled_decoder decoder.m_state decoder.m_data_new
       decoder.m_data_current decoder.m_phase].
  change (1 + 1 + Z.of_nat 37 <? 59) with true.
  change (59 - (1 + 1 + Z.of_nat 37)) with (59 - 39).
  rewrite Hre, Hv, Hvalid.
  cbn [fst snd decoder.get_data decoder.get_phase decoder.m_data_current
       decoder.m_phase decoder.state_value Z.geb Z.compare].
  repeat split; assumption.
Qed.

Lemma partial_capture_recovers_time_witness :
  exists d d',
    decoder.run decoder.init
                (pulses 1000 (skipn 20 (telegram_bits sample_telegram)))
    = Some d
    /\ decoder.m_state d = 39
    /\ decoder.sample d false 41000
       = decoder.Done d' decoder.has_time_and_date
    /\ decoder.get_data d' = Z.shiftl (Z.shiftr sample_telegram 20) 20
    /\ decoder.get_phase d' = 41000
    /\ data.get_minute (decoder.get_data d') = data.get_minute sample_telegram
    /\ data.get_hour (decoder.get_data d') = data.get_hour sample_telegram
    /\ data.get_day (decoder.get_data d') = data.get_day sample_telegram
    /\ data.get_day_of_week (decoder.get_data d')
       = data.get_day_of_week sample_telegram
    /\ data.get_month (decoder.get_data d') = data.get_month sample_telegram
    /\ data.get_year (decoder.get_data d') = data.get_year sample_telegram.
Proof.
  apply (partial_capture_recovers_time sample_telegram).
  - unfold sample_telegram. lia.
  - by_computation.
Defined.

Lemma field_clear (off : Z) (n : nat) (x : Z) :
  0 <= off ->
  (forall i, off <= i < off + Z.of_nat n -> Z.testbit x i = false) ->
  data.field off (Z.of_nat n) x = 0.
Proof.
  intros Hoff Hclear. apply Z.bits_inj'. intros i Hi.
  rewrite field_testbit, Z.bits_0 by lia.
  destruct (Z.ltb_spec i (Z.of_nat n)) as [Hlt|Hge].
  - rewrite Hclear by lia. reflexivity.
  - apply andb_false_r.
Qed.

Lemma realigned_low_bits (d : decoder.t) (i : Z) :
  i < 59 - decoder.m_state d -> Z.testbit (realigned d) i = false.
Proof.
  intros Hi. unfold realigned, to_uint64.
  change 18446744073709551616 with (2 ^ 64).
  destruct (Z.ltb_spec i 0) as [Hneg|Hnn]; [apply Z.testbit_neg_r; lia|].
  destruct (Z.ltb_spec i 64) as [Hlt|Hge].
  - rewrite Z.mod_pow2_bits_low by lia. apply Z.shiftl_spec_low. lia.
  - apply Z.mod_pow2_bits_high. lia.
Qed.

(** A record committed with [has_time_and_date] has every bit below
    [59 - bit_index] clear: the bits the decoder did not capture read as 0.
    The minute-start bit is always among them, and the flag accessors read
    false whenever their bit was not captured, whatever was transmitted:
    [daylight_saving()] with at most 41 bits captured,
    [daylight_saving_leap_hour()] with at most 42 and [leap_second()] with at
    most 39. *)
Theorem partial_record_flags_read_zero
    (d : decoder.t) (v : bool) (now : Z) (d' : decoder.t) :
  decoder.sample d v now = decoder.Done d' decoder.has_time_and_date ->
  (forall i, i < 59 - decoder.m_state d ->
             Z.testbit (decoder.get_data d') i = false)
  /\ data.minute_start (decoder.get_data d') = 0
  /\ (decoder.m_state d <= 41 ->
      data.get_daylight_saving (decoder.get_data d') = false)
  /\ (decoder.m_state d <= 42 ->
      data.get_daylight_saving_leap_hour (decoder.get_data d') = false)
  /\ (decoder.m_state d <= 39 ->
      data.get_leap_second (decoder.get_data d') = false).
Proof.
  intros Hs.
  destruct (sample_commit_cases d v now d' _ Hs)
    as [(Hres & _)|[(_ & _ & Hst & _ & Hd & _)|(_ & Hres & _)]];
    try discriminate.
  rewrite Hd.
  pose proof (realigned_low_bits d) as Hlow.
  split; [exact Hlow|].
  unfold data.get_daylight_saving, data.get_daylight_saving_leap_hour,
    data.get_leap_second, data.minute_start, data.cest, data.dst_leap_hour,
    data.leap_second.
  split; [|split; [|split]].
  - apply (field_clear 0 1); [lia|]. intros i Hi. apply Hlow. cbn in Hi. lia.
  - intros Hn. rewrite (field_clear 17 1); [reflexivity|lia|].
    intros i Hi. apply Hlow. cbn in Hi. lia.
  - intros Hn. rewrite (field_clear 16 1); [reflexivity|lia|].
    intros i Hi. apply Hlow. cbn in Hi. lia.
  - intros Hn. rewrite (field_clear 19 1); [reflexivity|lia|].
    intros i Hi. apply Hlow. cbn in Hi. lia.
Qed.

Lemma partial_record_flags_read_zero_witness :
  exists d',
    decoder.sample (decoder_after partial_minute) false 41000
    = decoder.Done d' decoder.has_time_and_date
    /\ data.get_daylight_saving (decoder.get_data d') = false
    /\ data.get_daylight_saving sample_telegram = false
    /\ data.cet (decoder.get_data d') = 0
    /\ data.cet sample_telegram = 1.
Proof.
  assert (Hs : decoder.sample (decoder_after partial_minute) false 41000
               = decoder.Done
                   (match decoder.sample (decoder_after partial_minute)
                            false 41000 with
                    | decoder.Done d' _ => d'
                    | decoder.ShiftOutOfRange _ => decoder.init
                    end) decoder.has_time_and_date) by by_computation.
  assert (Hcet : data.cet
                   (decoder.get_data
                      (match decoder.sample (decoder_after partial_minute)
                               false 41000 with
                       | decoder.Done d' _ => d'
                       | decoder.ShiftOutOfRange _ => decoder.init
                       end)) = 0) by by_computation.
  assert (Hst : decoder.m_state (decoder_after partial_minute) <= 41)
    by by_computation.
  remember (match decoder.sample (decoder_after partial_minute) false 41000
            with
            | decoder.Done d' _ => d'
            | decoder.ShiftOutOfRange _ => decoder.init
            end) as d' eqn:Hd'.
  clear Hd'. exists d'. split; [exact Hs|].
  destruct (partial_record_flags_read_zero _ _ _ _ Hs) as (_ & _ & Hds & _).
  split; [exact (Hds Hst)|]. split; [by_computation|].
  split; [exact Hcet|by_computation].
Defined.

(** * Termination of the convergence search *)

(** From every byte, and for either input level, [filter_convergence]
    finds a fixed point of the filter within the budget of 256 steps; the
    value it returns is a byte again. *)
Theorem filter_convergence_terminates (ctrl : bool) (x : Z) :
  0 <= x < 256 ->
  exists r,
    filter_convergence convergence_fuel ctrl x = Some r
    /\ filter ctrl r = r
    /\ 0 <= r < 256.
Proof.
  intros Hx.
  pose proof (forall_byte
    (fun x => match filter_convergence convergence_fuel ctrl x with
              | Some r => (filter ctrl r =? r) && (0 <=? r) && (r <? 256)
              | None => false
              end)) as Hall.
  specialize (Hall ltac:(destruct ctrl; vm_compute; reflexivity) x Hx).
  cbv beta in Hall.
  destruct (filter_convergence convergence_fuel ctrl x) as [r|];
    [|discriminate].
  apply andb_prop in Hall as [Hall H3]. apply andb_prop in Hall as [H1 H2].
  exists r. split; [reflexivity|]. split; [apply Z.eqb_eq; exact H1|lia].
Qed.

Lemma filter_convergence_terminates_witness :
  exists r,
    filter_convergence convergence_fuel true 255 = Some r
    /\ filter true r = r
    /\ 0 <= r < 256.
Proof. apply (filter_convergence_terminates true 255). lia. Defined.
